(** * hClient: key management, the keypair primitive and the call-signing
      session, embedded from [src/keyManagement.ts],
      [src/dpki-ultralite/keypair.js], [src/dpki-ultralite/util.ts] (the second
      document of [src/dpki-ultralite/index.ts]) and [src/index.ts]. *)

From Stdlib Require Import ZArith List Bool Lia.
From Stdlib.Strings Require Import String Ascii Byte.
From Stdlib Require Import DecimalString.
Import ListNotations.
Local Open Scope string_scope.
Local Open Scope list_scope.

Set Implicit Arguments.

(** ** The JavaScript run-time the code relies on *)

(** Values that are thrown or used to reject a promise. *)
Inductive error : Type :=
| Error (msg : string)          (* [new Error(msg)] raised by the repository's code *)
| TypeError (what : string)     (* raised by the engine: property of null, spread of undefined *)
| SodiumError (what : string)   (* raised inside libsodium-wrappers *)
| SyntaxError (what : string).  (* raised by [JSON.parse] *)

(** A synchronous computation either returns or throws. *)
Inductive result (A : Type) : Type :=
| Val (a : A)
| Throw (e : error).
Arguments Val {A} a.
Arguments Throw {A} e.

(** The state a promise ends up in.  [Pending] is a promise that is never
    settled: neither [resolve] nor [reject] is ever called for it. *)
Inductive promise (A : Type) : Type :=
| Fulfilled (a : A)
| Rejected (e : error)
| Pending.
Arguments Fulfilled {A} a.
Arguments Rejected {A} e.
Arguments Pending {A}.

(** What the executor of [new Promise((resolve, reject) => ...)] and the
    callbacks it registers end up telling the promise: the first call of
    [resolve] or [reject] counts, a later one is ignored. *)
Inductive settle (A : Type) : Type :=
| Resolve (a : A)
| Reject (e : error)
| NoSettle.
Arguments Resolve {A} a.
Arguments Reject {A} e.
Arguments NoSettle {A}.

Module JS.

(** [new Promise(executor)]: an executor that throws before settling rejects
    the promise. *)
Definition new_Promise {A} (executor : result (settle A)) : promise A :=
  match executor with
  | Val (Resolve a) => Fulfilled a
  | Val (Reject e) => Rejected e
  | Val NoSettle => Pending
  | Throw e => Rejected e
  end.

(** [p.then(cb)] written as a statement inside an executor: the promise that
    [then] returns is dropped.  A rejection of [p] and an exception thrown by
    [cb] reject that dropped promise only, so they settle nothing. *)
Definition then_dropped {A B} (p : promise A) (cb : A -> result (settle B))
  : settle B :=
  match p with
  | Fulfilled a => match cb a with
                   | Val s => s
                   | Throw _ => NoSettle
                   end
  | Rejected _ => NoSettle
  | Pending => NoSettle
  end.

(** [p.then(cb)] whose result is used: [cb] returns a promise that the chain
    adopts, an exception in [cb] rejects the chain. *)
Definition then_ {A B} (p : promise A) (cb : A -> result (promise B))
  : promise B :=
  match p with
  | Fulfilled a => match cb a with
                   | Val q => q
                   | Throw e => Rejected e
                   end
  | Rejected e => Rejected e
  | Pending => Pending
  end.

(** [resolve(e); reject('failure reason')] where evaluating [e] may throw:
    when it does not, [resolve] wins and the [reject] after it is ignored;
    when it does, neither call is reached. *)
Definition resolve_then_reject {A} (e : result A) : result (settle A) :=
  match e with
  | Val a => Val (Resolve a)
  | Throw x => Throw x
  end.

(** The body of an [async] function: [await p] continues with the value of
    [p], re-throws its rejection, and waits for ever on a pending one. *)
Definition await {A B} (p : promise A) (k : A -> promise B) : promise B :=
  match p with
  | Fulfilled a => k a
  | Rejected e => Rejected e
  | Pending => Pending
  end.

(** [try { body } catch (e) { handler }] around the awaits of an [async]
    function. *)
Definition try_catch {A} (body : promise A) (handler : error -> promise A)
  : promise A :=
  match body with
  | Rejected e => handler e
  | other => other
  end.

(** A synchronous call inside an [async] function. *)
Definition of_result {A} (r : result A) : promise A :=
  match r with
  | Val a => Fulfilled a
  | Throw e => Rejected e
  end.

End JS.

(** ** Byte arrays *)

(** The contents of a [Uint8Array] or [Buffer]. *)
Definition bytes : Type := list byte.

Definition byte_to_Z (b : byte) : Z := Z.of_N (Byte.to_N b).

(** Storing a number into a [Uint8Array] keeps its low eight bits. *)
Definition uint8 (z : Z) : byte :=
  match Byte.of_N (Z.to_N (z mod 256)) with
  | Some b => b
  | None => x00
  end.

(** [a[i]] as an operand of [^]: an index past the end reads [undefined],
    which [^] converts to 0. *)
Definition index_int (a : bytes) (i : nat) : Z :=
  match nth_error a i with
  | Some x => byte_to_Z x
  | None => 0%Z
  end.

(** [slice(lo, hi)] of a byte array, for [0 <= lo <= hi]. *)
Definition slice (b : bytes) (lo hi : nat) : bytes :=
  firstn (hi - lo) (skipn lo b).

(** A JavaScript string is held as its UTF-8 encoding, so that
    [Buffer.from(str)] gives its bytes as they are.  (A string with a lone
    surrogate has no such encoding and is left out.) *)
Definition Buffer_from (s : string) : bytes := list_byte_of_string s.

(** The [data] given to [encrypt]: a string or a byte array.
    [Buffer.from(data)] is the encoding of the one and a copy of the
    other. *)
Inductive plaintext : Type :=
| Text (s : string)
| Binary (b : bytes).

Definition Buffer_from_data (d : plaintext) : bytes :=
  match d with
  | Text s => Buffer_from s
  | Binary b => b
  end.

(** The string that holds the bytes of a plaintext: the plaintext itself
    when it is a string. *)
Definition as_text (d : plaintext) : string :=
  match d with
  | Text s => s
  | Binary b => string_of_list_byte b
  end.

Definition in_range (lo hi : Z) (b : byte) : bool :=
  ((lo <=? byte_to_Z b) && (byte_to_Z b <=? hi))%Z.

(** The UTF-8 decoder of the Encoding standard, as a test: [need] is the
    number of continuation bytes still expected, [lo] and [hi] bound the
    next one.  Overlong forms, surrogates and code points above U+10FFFF
    are refused, and so is a sequence cut short. *)
Fixpoint utf8_from (need : nat) (lo hi : Z) (b : bytes) : bool :=
  match b with
  | [] => Nat.eqb need 0
  | x :: rest =>
      match need with
      | O =>
          if in_range 0 127 x then utf8_from 0 128 191 rest
          else if in_range 194 223 x then utf8_from 1 128 191 rest
          else if in_range 224 239 x then
            utf8_from 2 (if in_range 224 224 x then 160 else 128)
                        (if in_range 237 237 x then 159 else 191) rest
          else if in_range 240 244 x then
            utf8_from 3 (if in_range 240 240 x then 144 else 128)
                        (if in_range 244 244 x then 143 else 191) rest
          else false
      | S need' =>
          if in_range lo hi x then utf8_from need' 128 191 rest else false
      end
  end.

Definition utf8_valid (b : bytes) : bool := utf8_from 0 128 191 b.

(** Whether the bytes start with the byte order mark EF BB BF, which a
    [TextDecoder] leaves out of the string it returns. *)
Definition utf8_bom (b : bytes) : bool :=
  match b with
  | x :: y :: z :: _ =>
      in_range 239 239 x && in_range 187 187 y && in_range 191 191 z
  | _ => false
  end.

(** ** [src/keyManagement.ts]: combining entropy *)

(** [XorUint8Array]: [r = new Uint8Array(a.length)], then
    [r[i] = a[i] ^ b[i]] for every [i < a.length]. *)
Definition XorUint8Array (a b : bytes) : bytes :=
  map (fun i => uint8 (Z.lxor (index_int a i) (index_int b i)))
      (seq 0 (List.length a)).

(** ** External libraries *)

(** Random bytes are read off a tape: a draw of [count] bytes returns them
    together with the rest of the tape. *)
Definition rng : Type := nat -> byte.

Definition randombytes_buf (count : nat) (g : rng) : bytes * rng :=
  (map g (seq 0 count), fun i => g (count + i)).

Inductive base64_variant : Type := ORIGINAL | URLSAFE_NO_PADDING.

Record kx_session_keys : Type := { sharedRx : bytes; sharedTx : bytes }.

(** libsodium-wrappers, as far as the code calls it.  Key pairs are returned
    as (publicKey, privateKey).  [crypto_pwhash] is called with the fixed
    INTERACTIVE limits and the ARGON2ID13 algorithm of [pwHash].  Decryption
    throws when the ciphertext does not authenticate, and [to_string] when
    the bytes are not UTF-8.  The key exchange and the password hash are
    given here on arguments of the sizes the library accepts; that it throws
    on any other size is written out where the code calls them ([kx_server],
    [kx_client], [pwHash]). *)
Class Sodium : Type := {
  ready : promise unit;
  to_base64 : bytes -> base64_variant -> string;
  from_base64 : string -> base64_variant -> result bytes;
  to_string : bytes -> result string;
  crypto_sign_seed_keypair : bytes -> bytes * bytes;
  crypto_kx_seed_keypair : bytes -> bytes * bytes;
  crypto_sign_detached : string -> bytes -> bytes;
  crypto_sign_verify_detached : bytes -> string -> bytes -> bool;
  crypto_kx_server_session_keys : bytes -> bytes -> bytes -> kx_session_keys;
  crypto_kx_client_session_keys : bytes -> bytes -> bytes -> kx_session_keys;
  crypto_aead_xchacha20poly1305_ietf_encrypt :
    bytes -> option bytes -> bytes -> bytes -> bytes;
  crypto_aead_xchacha20poly1305_ietf_decrypt :
    bytes -> option bytes -> bytes -> bytes -> result bytes;
  crypto_pwhash : nat -> string -> bytes -> bytes
}.

(** The msgpack documents the code writes and reads: arrays and maps whose
    items are byte arrays, [undefined] or [null] (both written as nil and
    read back as [null]), or positive integers.  A decoded byte array is a
    [Uint8Array], the only class that the constructor of [Keypair] accepts
    for a key. *)
Inductive mpval : Type :=
| MNil
| MBin (b : bytes)
| MNum (n : positive).

Inductive mp : Type :=
| MArray (items : list mpval)
| MMap (fields : list (string * mpval)).

Class Msgpack : Type := {
  msgpack_encode : mp -> bytes;
  msgpack_decode : bytes -> result mp
}.

(** [undefined] and [null] encode as nil. *)
Definition mp_of_option (o : option bytes) : mpval :=
  match o with
  | Some b => MBin b
  | None => MNil
  end.

(** The bytes of a decoded item that is a byte array: what a spread
    iterates over, and what is left of a key once the constructor of
    [Keypair] has let it through. *)
Definition option_of_mp (v : mpval) : option bytes :=
  match v with
  | MBin b => Some b
  | MNil => None
  | MNum _ => None
  end.

(** The own field of a decoded map, when there is one. *)
Fixpoint own_field (name : string) (fields : list (string * mpval))
  : option mpval :=
  match fields with
  | [] => None
  | (k, v) :: rest => if String.eqb k name then Some v else own_field name rest
  end.

(** [fields[name]]: a missing field reads [undefined], which is not told
    from [null] where the value is used as a key, a salt or a
    ciphertext. *)
Definition assoc (name : string) (fields : list (string * mpval)) : mpval :=
  match own_field name fields with
  | Some v => v
  | None => MNil
  end.

(** [doc.name] for the names [salt], [nonce] and [cipher]: an array has no
    such field. *)
Definition mp_field (doc : mp) (name : string) : mpval :=
  match doc with
  | MMap fields => assoc name fields
  | MArray _ => MNil
  end.

(** The property name of an index: its decimal numeral. *)
Definition index_name (i : nat) : string :=
  NilZero.string_of_uint (Nat.to_uint i).

(** [doc[i]]: the item of an array, the field named by the numeral of [i]
    of a map. *)
Definition mp_at (doc : mp) (i : nat) : mpval :=
  match doc with
  | MArray items => nth i items MNil
  | MMap fields => assoc (index_name i) fields
  end.

(** A decoded item converted to a number, as the [-] of
    [cipher.length - 2] does: [null] is 0; a [Uint8Array] goes through its
    string, the items joined by commas, so that an empty one is 0, one byte
    is its value and two or more are [NaN] ([None]). *)
Definition to_number (v : mpval) : option Z :=
  match v with
  | MNil => Some 0%Z
  | MBin [] => Some 0%Z
  | MBin [x] => Some (byte_to_Z x)
  | MBin _ => None
  | MNum n => Some (Z.pos n)
  end.

(** [doc.length] as a bound of a loop: the number of items of an array; for
    a map, what its field [length] converts to, and nothing ([NaN], 0 here)
    when it has none. *)
Definition mp_length (doc : mp) : nat :=
  match doc with
  | MArray items => List.length items
  | MMap fields =>
      match own_field "length" fields with
      | Some v => match to_number v with
                  | Some n => Z.to_nat n
                  | None => 0
                  end
      | None => 0
      end
  end.

(** What [doc.length] and [doc[i]] for [i < doc.length] show of a decoded
    document: the items of an array, and of a map the fields numbered from
    0 up to its [length]. *)
Definition mp_items (doc : mp) : list mpval :=
  match doc with
  | MArray items => items
  | MMap _ => map (mp_at doc) (seq 0 (mp_length doc))
  end.

(** [items[i]] *)
Definition mp_index (items : list mpval) (i : nat) : mpval :=
  nth i items MNil.

Definition NONCEBYTES : nat := 24.
Definition SALTBYTES : nat := 16.

(** ** [src/dpki-ultralite/util.ts] *)

Record pw_hash : Type := { salt : bytes; hash : bytes }.
Record id_keys : Type := { signPub : bytes; encPub : bytes }.

Module util.
Section Util.
Context {sodium : Sodium} {msgpack : Msgpack}.

Definition randomBytes (count : nat) (g : rng) : promise (bytes * rng) :=
  JS.new_Promise (Val (JS.then_dropped ready (fun _ =>
    JS.resolve_then_reject (Val (randombytes_buf count g))))).

(** [new Uint8Array([...signPub, ...encPub])] throws when either argument is
    [undefined] or [null]. *)
Definition spread2 (a b : option bytes) : result bytes :=
  match a, b with
  | Some x, Some y => Val (x ++ y)
  | _, _ => Throw (TypeError "not iterable")
  end.

Definition encodeId (signPub encPub : option bytes) : promise string :=
  JS.new_Promise (Val (JS.then_dropped ready (fun _ =>
    JS.resolve_then_reject
      (match spread2 signPub encPub with
       | Val both => Val (to_base64 both URLSAFE_NO_PADDING)
       | Throw e => Throw e
       end)))).

Definition decodeId (id : string) : promise id_keys :=
  JS.new_Promise (Val (JS.then_dropped ready (fun _ =>
    match from_base64 id URLSAFE_NO_PADDING with
    | Throw e => Throw e
    | Val tmp =>
        JS.resolve_then_reject
          (Val {| signPub := slice tmp 0 32; encPub := slice tmp 32 64 |})
    end))).

Definition verify (signature : bytes) (data : string) (signerId : string)
  : promise bool :=
  JS.new_Promise (Val (JS.then_dropped (decodeId signerId) (fun pw =>
    Val (JS.then_dropped ready (fun _ =>
      JS.resolve_then_reject
        (Val (crypto_sign_verify_detached signature data (signPub pw)))))))).

(** [pwHash(pass, salt)]: [salt || randombytes_buf(SALTBYTES)].  The
    library takes a salt of 16 bytes and throws on any other length; that
    is inside the callback, before [resolve]. *)
Definition pwHash (pass : string) (salt0 : option bytes) (g : rng)
  : promise (pw_hash * rng) :=
  JS.new_Promise (Val (JS.then_dropped ready (fun _ =>
    let '(s, g') := match salt0 with
                    | Some s => (s, g)
                    | None => randombytes_buf SALTBYTES g
                    end in
    if Nat.eqb (List.length s) 16 then
      let derivedKey := crypto_pwhash 32 pass s in
      JS.resolve_then_reject (Val ({| salt := s; hash := derivedKey |}, g'))
    else Throw (TypeError "invalid salt length")))).

(** [pwHash(pass, salt)] with a decoded item as [salt]: nil is falsy and
    gives way to a random salt, a byte array is the salt, and a number is
    passed on to the library, which throws on it as on a salt of a wrong
    length. *)
Definition pwHash_item (pass : string) (salt0 : mpval) (g : rng)
  : promise (pw_hash * rng) :=
  match salt0 with
  | MNum _ =>
      JS.new_Promise (Val (JS.then_dropped ready (fun _ =>
        Throw (TypeError "unsupported input type for salt"))))
  | MNil => pwHash pass None g
  | MBin s => pwHash pass (Some s) g
  end.

Definition pwEnc (data : bytes) (passphrase : string) (adata : option bytes)
    (g : rng) : promise bytes :=
  JS.new_Promise (Val (JS.then_dropped ready (fun _ =>
    Val (JS.then_dropped (pwHash passphrase None g) (fun '(pw, g1) =>
      let secret := hash pw in
      let '(nonce, _) := randombytes_buf NONCEBYTES g1 in
      let ciphertext :=
        crypto_aead_xchacha20poly1305_ietf_encrypt data adata nonce secret in
      JS.resolve_then_reject
        (Val (msgpack_encode (MMap [("salt", MBin (salt pw));
                                    ("nonce", MBin nonce);
                                    ("cipher", MBin ciphertext)])))))))).

(** The decrypt primitive called with decoded items: an item that is not a
    byte array is refused by the wrapper. *)
Definition aead_decrypt (c : mpval) (adata : option bytes) (n : mpval)
    (key : bytes) : result bytes :=
  match c, n with
  | MBin c', MBin n' =>
      crypto_aead_xchacha20poly1305_ietf_decrypt c' adata n' key
  | _, _ => Throw (TypeError "unsupported input type")
  end.

(** [pwDec]: [msgpack.decode(data)] runs before the promise is made, so a
    malformed [data] makes the call itself throw. *)
Definition pwDec (data : bytes) (passphrase : string) (adata : option bytes)
    (g : rng) : result (promise bytes) :=
  match msgpack_decode data with
  | Throw e => Throw e
  | Val decodedData =>
      Val (JS.new_Promise (Val (JS.then_dropped
        (pwHash_item passphrase (mp_field decodedData "salt") g)
        (fun '(pw, _) =>
           let secret := hash pw in
           Val (JS.then_dropped ready (fun _ =>
             JS.resolve_then_reject
               (aead_decrypt (mp_field decodedData "cipher") adata
                             (mp_field decodedData "nonce") secret)))))))
  end.

Definition toBase64 (buffer : bytes) : promise string :=
  JS.then_ ready (fun _ => Val (Fulfilled (to_base64 buffer ORIGINAL))).

Definition fromBase64 (str : string) : promise bytes :=
  JS.then_ ready (fun _ =>
    match from_base64 str ORIGINAL with
    | Val b => Val (Fulfilled b)
    | Throw e => Throw e
    end).

End Util.
End util.

(** ** [src/dpki-ultralite/keypair.js] *)

Record Keypair : Type := {
  _pubkeys : string;
  _signPub : option bytes;
  _encPub : option bytes;
  _signPriv : option bytes;
  _encPriv : option bytes
}.

Record Bundle : Type := {
  type : string;
  hint : string;
  data : bytes
}.

Section KeypairClass.
Context {sodium : Sodium} {msgpack : Msgpack}.

Definition newFromSeed (seed : bytes) : promise Keypair :=
  JS.new_Promise (Val (JS.then_dropped ready (fun _ =>
    let '(signPub, signPriv) := crypto_sign_seed_keypair seed in
    let '(encPub, encPriv) := crypto_kx_seed_keypair seed in
    Val (JS.then_dropped (util.encodeId (Some signPub) (Some encPub))
      (fun pubkeys =>
         JS.resolve_then_reject
           (Val {| _pubkeys := pubkeys;
                   _signPub := Some signPub;
                   _encPub := Some encPub;
                   _signPriv := Some signPriv;
                   _encPriv := Some encPriv |})))))).

Definition getId (k : Keypair) : string := _pubkeys k.

(** [sign] throws before making its promise when there is no private
    signing key. *)
Definition sign (k : Keypair) (data : string) : result (promise bytes) :=
  match _signPriv k with
  | None => Throw (Error "no signPriv - cannot sign data")
  | Some signPriv =>
      Val (JS.new_Promise (Val (JS.then_dropped ready (fun _ =>
        JS.resolve_then_reject (Val (crypto_sign_detached data signPriv))))))
  end.

Definition verify (k : Keypair) (signature : bytes) (data : string)
  : promise bool :=
  JS.new_Promise (Val (JS.then_dropped
    (util.verify signature data (_pubkeys k))
    (fun ok => JS.resolve_then_reject (Val ok)))).

(** The three keys of a key exchange are 32 bytes each. *)
Definition kx_sizes (pk sk other : bytes) : bool :=
  Nat.eqb (List.length pk) 32 && Nat.eqb (List.length sk) 32
  && Nat.eqb (List.length other) 32.

(** The key-exchange calls throw inside the library when a key of the
    keypair is [undefined], and when one of the three keys is not 32 bytes
    long. *)
Definition kx_server (k : Keypair) (recipPub : bytes)
  : result kx_session_keys :=
  match _encPub k, _encPriv k with
  | Some pk, Some sk =>
      if kx_sizes pk sk recipPub
      then Val (crypto_kx_server_session_keys pk sk recipPub)
      else Throw (TypeError "invalid key length")
  | _, _ => Throw (TypeError "unsupported input type")
  end.

Definition kx_client (k : Keypair) (sourcePub : bytes)
  : result kx_session_keys :=
  match _encPub k, _encPriv k with
  | Some pk, Some sk =>
      if kx_sizes pk sk sourcePub
      then Val (crypto_kx_client_session_keys pk sk sourcePub)
      else Throw (TypeError "invalid key length")
  | _, _ => Throw (TypeError "unsupported input type")
  end.

(** One call of [_loop(i, p)] run to its end: the chain
    [decodeId(...).then(key => key.encPub).then(recipPub => ...)].  [None]
    when the chain stops on a rejection or an exception before it pushes. *)
Definition encrypt_chain (k : Keypair) (symSecret : bytes)
    (adata : option bytes) (recipientId : string)
    (out : list bytes) (g : rng) : option (list bytes * rng) :=
  match JS.then_ (JS.then_ (util.decodeId recipientId)
                           (fun key => Val (Fulfilled (encPub key))))
                 (fun recipPub =>
                    match kx_server k recipPub with
                    | Throw e => Throw e
                    | Val keys =>
                        let tx := sharedTx keys in
                        let '(nonce, g') := randombytes_buf NONCEBYTES g in
                        let cipher :=
                          crypto_aead_xchacha20poly1305_ietf_encrypt
                            symSecret adata nonce tx in
                        Val (Fulfilled (out ++ [nonce] ++ [cipher], g'))
                    end) with
  | Fulfilled r => Some r
  | Rejected _ => None
  | Pending => None
  end.

(** The [for] loop over the recipients.  Every chain has the same number of
    steps, so their last callbacks run in the order of [i]; the chain of the
    last index is the one that calls [resolve], with all that was pushed
    until then. *)
Fixpoint encrypt_loop (k : Keypair) (symSecret : bytes)
    (adata : option bytes) (recipientIds : list string)
    (out : list bytes) (g : rng) : settle (list bytes * rng) :=
  match recipientIds with
  | [] => NoSettle
  | id :: rest =>
      let r := encrypt_chain k symSecret adata id out g in
      match rest with
      | [] => match r with
              | Some r' => Resolve r'
              | None => NoSettle
              end
      | _ :: _ =>
          match r with
          | Some (out', g') => encrypt_loop k symSecret adata rest out' g'
          | None => encrypt_loop k symSecret adata rest out g
          end
      end
  end.

Definition encrypt (k : Keypair) (recipientIds : list string)
    (data : plaintext) (adata : option bytes) (g : rng) : promise bytes :=
  let data := Buffer_from_data data in
  JS.new_Promise (Val (JS.then_dropped ready (fun _ =>
    Val (JS.then_dropped
      (JS.then_ (util.randomBytes 32 g) (fun '(symSecret, g1) =>
         Val (JS.new_Promise
           (Val (match encrypt_loop k symSecret adata recipientIds [] g1 with
                 | Resolve (out, g2) => Resolve (out, symSecret, g2)
                 | Reject e => Reject e
                 | NoSettle => NoSettle
                 end)))))
      (fun '(out, symSecret, g2) =>
         let '(nonce, _) := randombytes_buf NONCEBYTES g2 in
         let cipher :=
           crypto_aead_xchacha20poly1305_ietf_encrypt
             data adata nonce symSecret in
         JS.resolve_then_reject
           (Val (msgpack_encode
                   (MArray (map MBin (out ++ [nonce] ++ [cipher])))))))))).

(** [for (let i = 0; i < cipher.length - 2; i += 2)] with the [try] around
    the decryption of slot [i]; [fuel] bounds the number of rounds. *)
Fixpoint decrypt_loop (fuel : nat) (i : nat) (cipher : list mpval)
    (adata : option bytes) (rx : bytes) (symSecret : option bytes)
  : option bytes :=
  match fuel with
  | O => symSecret
  | S fuel' =>
      if (Z.of_nat i <? Z.of_nat (List.length cipher) - 2)%Z then
        let n := mp_index cipher i in
        let c := mp_index cipher (i + 1) in
        let symSecret' :=
          match util.aead_decrypt c adata n rx with
          | Val s => Some s
          | Throw _ => symSecret
          end in
        decrypt_loop fuel' (i + 2) cipher adata rx symSecret'
      else symSecret
  end.

Definition decrypt (k : Keypair) (sId : string) (cipher : bytes)
    (adata : option bytes) : result (promise string) :=
  match msgpack_decode cipher with
  | Throw e => Throw e
  | Val doc =>
      let cipher := mp_items doc in
      Val (JS.new_Promise (Val (JS.then_dropped ready (fun _ =>
        Val (JS.then_dropped (util.decodeId sId) (fun id =>
          let sourceId := encPub id in
          match kx_client k sourceId with
          | Throw e => Throw e
          | Val keys =>
              let rx := sharedRx keys in
              match decrypt_loop (List.length cipher) 0 cipher adata rx None
              with
              | None =>
                  Val (Reject (Error "could not decrypt - not a recipient?"))
              | Some symSecret =>
                  JS.resolve_then_reject
                    (match util.aead_decrypt
                             (mp_index cipher (List.length cipher - 1)) adata
                             (mp_index cipher (List.length cipher - 2))
                             symSecret with
                     | Val m => to_string m
                     | Throw e => Throw e
                     end)
              end
          end))))))
  end.

Definition getBundle (k : Keypair) (passphrase : string) (hint : string)
    (g : rng) : promise Bundle :=
  JS.new_Promise (Val (JS.then_dropped
    (util.pwEnc (msgpack_encode
                   (MArray [mp_of_option (_signPub k);
                            mp_of_option (_encPub k);
                            mp_of_option (_signPriv k);
                            mp_of_option (_encPriv k)]))
                passphrase None g)
    (fun data =>
       JS.resolve_then_reject
         (Val {| type := "hcKeypair"; hint := hint; data := data |})))).

(** A key that is given (truthy) and is not a [Uint8Array]. *)
Definition refused (v : mpval) : bool :=
  match v with
  | MNum _ => true
  | _ => false
  end.

(** [new Keypair(opt)] on decoded items: a key that is given and is not a
    [Uint8Array] makes the constructor throw; the keys are tested in the
    order [signPub], [signPriv], [encPub], [encPriv]. *)
Definition new_Keypair (pubkeys : string) (signPub signPriv encPub encPriv
    : mpval) : result Keypair :=
  if refused signPub then
    Throw (Error "if opt.signPub is specified, it must be a Buffer")
  else if refused signPriv then
    Throw (Error "if opt.signPriv is specified, it must be a Buffer")
  else if refused encPub then
    Throw (Error "if opt.encPub is specified, it must be a Buffer")
  else if refused encPriv then
    Throw (Error "if opt.encPriv is specified, it must be a Buffer")
  else
    Val {| _pubkeys := pubkeys;
           _signPub := option_of_mp signPub;
           _encPub := option_of_mp encPub;
           _signPriv := option_of_mp signPriv;
           _encPriv := option_of_mp encPriv |}.

Definition fromBundle (bundle : Bundle) (passphrase : string) (g : rng)
  : promise Keypair :=
  JS.new_Promise
    (match util.pwDec (data bundle) passphrase None g with
     | Throw e => Throw e
     | Val p =>
         Val (JS.then_dropped p (fun encoded_bundle =>
           match msgpack_decode encoded_bundle with
           | Throw e => Throw e
           | Val bundle =>
               Val (JS.then_dropped
                 (util.encodeId (option_of_mp (mp_at bundle 0))
                                (option_of_mp (mp_at bundle 1)))
                 (fun pubkeys =>
                    JS.resolve_then_reject
                      (new_Keypair pubkeys (mp_at bundle 0) (mp_at bundle 2)
                                   (mp_at bundle 1) (mp_at bundle 3))))
           end))
     end).

End KeypairClass.

(** ** [src/keyManagement.ts]: deriving keypairs *)

Section KeyManagement.
Context {sodium : Sodium} {msgpack : Msgpack}.

(** [generateReadonlyKeypair]; the two entropy generators are its
    arguments. *)
Definition generateReadonlyKeypair
    (remoteEntropyGenerator localEntropyGenerator : promise bytes)
  : promise Keypair :=
  JS.await remoteEntropyGenerator (fun remoteEntropy =>
  JS.await localEntropyGenerator (fun localEntropy =>
  let seed := XorUint8Array remoteEntropy localEntropy in
  JS.await (newFromSeed seed) (fun keypair =>
  Fulfilled keypair))).

(** [regenerateReadwriteKeypair].  The callback resolves to the registered
    salt, or to a falsy value ([None]) when it has none.  The result is
    [undefined] ([None]) when the function returns without a keypair; the
    second component is what was written with [console.error]. *)
Definition regenerateReadwriteKeypair (email password : string)
    (getRegisteredSaltCallback : string -> promise (option bytes))
    (g : rng) : promise (option Keypair) * list string :=
  let body :=
    JS.await (getRegisteredSaltCallback email) (fun registeredSalt =>
      match registeredSalt with
      | Some registeredSalt =>
          JS.await (util.pwHash password (Some (slice registeredSalt 0 16)) g)
            (fun '(pw, _) =>
          JS.await (newFromSeed (hash pw)) (fun keypair =>
          Fulfilled (Some keypair)))
      | None => Fulfilled None
      end) in
  (JS.try_catch body (fun e => Fulfilled None),
   match body with
   | Rejected e => ["No salt found. Unable to log in."]
   | _ => []
   end).

End KeyManagement.

(** ** JavaScript values in calls and responses *)

#[warnings="-register-all"]
Inductive value : Type :=
| VUndefined
| VNull
| VBool (b : bool)
| VNum (n : Z)
| VStr (s : string)
| VArr (items : list value)
| VObj (fields : list (string * value)).

Class Json : Type := {
  JSON_parse : string -> result value;
  JSON_stringify : value -> string
}.

(** [await new Encoding('hcs0')] followed by [enc.encode(...)], from
    @holochain/hcid-js. *)
Class Hcid : Type := {
  hcs0_encode : option bytes -> result string
}.

Fixpoint own_property (name : string) (fields : list (string * value))
  : value :=
  match fields with
  | [] => VUndefined
  | (k, v) :: rest => if String.eqb k name then v else own_property name rest
  end.

(** [v.name] for the names the code reads ([Err], [code]): reading a property
    of [undefined] or [null] throws, numbers, booleans, strings and arrays
    have no such property. *)
Definition get_prop (v : value) (name : string) : result value :=
  match v with
  | VUndefined => Throw (TypeError "Cannot read property of undefined")
  | VNull => Throw (TypeError "Cannot read property of null")
  | VObj fields => Val (own_property name fields)
  | VBool _ => Val VUndefined
  | VNum _ => Val VUndefined
  | VStr _ => Val VUndefined
  | VArr _ => Val VUndefined
  end.

Definition truthy (v : value) : bool :=
  match v with
  | VUndefined => false
  | VNull => false
  | VBool b => b
  | VNum n => negb (n =? 0)%Z
  | VStr s => negb (String.eqb s EmptyString)
  | VArr _ => true
  | VObj _ => true
  end.

(** [v === 401] *)
Definition strict_eq_401 (v : value) : bool :=
  match v with
  | VNum n => (n =? 401)%Z
  | _ => false
  end.

(** [str.split(sep)] for a one-character separator. *)
Fixpoint split (sep : ascii) (str : string) : list string :=
  match str with
  | EmptyString => [EmptyString]
  | String c rest =>
      if Ascii.eqb c sep then EmptyString :: split sep rest
      else match split sep rest with
           | [] => [String c EmptyString]
           | first :: others => String c first :: others
           end
  end.

(** An optional string as a property value, and inside a template literal. *)
Definition value_of_option (o : option string) : value :=
  match o with
  | Some s => VStr s
  | None => VUndefined
  end.

Definition template_of_option (o : option string) : string :=
  match o with
  | Some s => s
  | None => "undefined"
  end.

(** The template literal [`agent/${agentId}/sign`]. *)
Definition sign_event_name (agentId : option string) : string :=
  ("agent/" ++ template_of_option agentId ++ "/sign")%string.

(** ** [src/index.ts]: the session *)

(** The functions registered with [websocket.on].  The only one is the arrow
    function of [sendClientSignature]; it captures no local variable, it reads
    the module variables [keypair] and [websocket] when it runs. *)
Inductive listener : Type := SignOnRequest.

(** What the client side of the channel has been asked to do. *)
Record WebsocketClient : Type := {
  calls : list (string * value);
  subscriptions : list string;
  listeners : list (string * listener)
}.

(** The module variables of [hClient]; [loginPrompts] counts the calls of
    [triggerLoginPrompt]. *)
Record Session : Type := {
  keypair : option Keypair;
  websocket : option WebsocketClient;
  _happId : option string;
  loginPrompts : nat
}.

Record SignEvent : Type := { entry : string; id : value }.

Record PreCallResult : Type := { callString : string; params : value }.

(** An [async] function of the module: it may change the module variables
    and the channel, and returns a promise. *)
Definition M (A : Type) : Type := Session -> Session * promise A.

Definition ret {A} (a : A) : M A := fun s => (s, Fulfilled a).

Definition throw {A} (e : error) : M A := fun s => (s, Rejected e).

Definition bind {A B} (m : M A) (k : A -> M B) : M B :=
  fun s =>
    match m s with
    | (s', Fulfilled a) => k a s'
    | (s', Rejected e) => (s', Rejected e)
    | (s', Pending) => (s', Pending)
    end.

Definition lift {A} (p : promise A) : M A := fun s => (s, p).

Notation "x <- m ;; k" := (bind m (fun x => k))
  (at level 61, m at next level, right associativity).

Definition set_keypair (kp : option Keypair) (s : Session) : Session :=
  {| keypair := kp; websocket := websocket s; _happId := _happId s;
     loginPrompts := loginPrompts s |}.

Definition set_websocket (ws : option WebsocketClient) (s : Session)
  : Session :=
  {| keypair := keypair s; websocket := ws; _happId := _happId s;
     loginPrompts := loginPrompts s |}.

Section HClient.
Context {sodium : Sodium} {msgpack : Msgpack} {json : Json} {hcid : Hcid}.

(** The answers of the host to the calls made on the channel. *)
Variable host : string -> value -> promise value.

(** [websocket.call(method, params)] *)
Definition websocket_call (method : string) (args : value) : M value :=
  fun s =>
    match websocket s with
    | None => (s, Rejected (TypeError "Cannot read property of undefined"))
    | Some ws =>
        (set_websocket
           (Some {| calls := calls ws ++ [(method, args)];
                    subscriptions := subscriptions ws;
                    listeners := listeners ws |}) s,
         host method args)
    end.

(** [websocket.subscribe(event)]; the promise it returns is not used. *)
Definition websocket_subscribe (event : string) : M unit :=
  fun s =>
    match websocket s with
    | None => (s, Rejected (TypeError "Cannot read property of undefined"))
    | Some ws =>
        (set_websocket
           (Some {| calls := calls ws;
                    subscriptions := subscriptions ws ++ [event];
                    listeners := listeners ws |}) s,
         Fulfilled tt)
    end.

(** [websocket.on(event, handler)] *)
Definition websocket_on (event : string) (handler : listener) : M unit :=
  fun s =>
    match websocket s with
    | None => (s, Rejected (TypeError "Cannot read property of undefined"))
    | Some ws =>
        (set_websocket
           (Some {| calls := calls ws;
                    subscriptions := subscriptions ws;
                    listeners := listeners ws ++ [(event, handler)] |}) s,
         Fulfilled tt)
    end.

Definition getCurrentAgentId : M (option string) :=
  fun s =>
    match keypair s with
    | Some kp =>
        (s, JS.await (JS.of_result (hcs0_encode (_signPub kp)))
              (fun agentId => Fulfilled (Some agentId)))
    | None => (s, Fulfilled None)
    end.

Definition sendClientSignature (kp : option Keypair) : M unit :=
  fun s0 =>
    let s := set_keypair kp s0 in
    match websocket s with
    | Some _ =>
        (agentId <- getCurrentAgentId ;;
         _ <- websocket_call "holo/identify"
                (VObj [("agentId", value_of_option agentId)]) ;;
         let event := sign_event_name agentId in
         _ <- websocket_subscribe event ;;
         websocket_on event SignOnRequest) s
    | None =>
        (s, Rejected (Error
           "Could not register callback as no valid websocket instance found"))
    end.

(** The body of a registered function, run on one event.  The
    [clientSignature] call is made without [await]: its answer is not
    looked at. *)
Definition run_listener (l : listener) (ev : SignEvent) : M unit :=
  match l with
  | SignOnRequest =>
      fun s =>
        match keypair s with
        | None => (s, Rejected (TypeError "Cannot read property of undefined"))
        | Some kp =>
            (signature <- lift (JS.await (JS.of_result (sign kp (entry ev)))
                                  (fun p => p)) ;;
             signatureBase64 <- lift (util.toBase64 signature) ;;
             fun s' =>
               (fst (websocket_call "holo/clientSignature"
                       (VObj [("signature", VStr signatureBase64);
                              ("requestId", id ev)]) s'),
                Fulfilled tt)) s
        end
  end.

(** The channel delivers an event to the client: the functions registered
    for its name run in the order of their registration, and what their
    promises become is not looked at.  Each of them reads [keypair] when it
    starts and only appends to the calls of the channel, so running them
    one after the other gives the calls in the order the engine makes
    them. *)
Definition deliver (event : string) (ev : SignEvent) (s : Session)
  : Session :=
  match websocket s with
  | None => s
  | Some ws =>
      fold_left
        (fun s' '(name, l) =>
           if String.eqb name event then fst (run_listener l ev s') else s')
        (listeners ws) s
  end.

(** [callString.split('/')] destructured into three names. *)
Definition segment (segments : list string) (i : nat) : value :=
  value_of_option (nth_error segments i).

Definition _preCall (callString : string) (args : value)
  : M PreCallResult :=
  fun s =>
    match keypair s with
    | None => (s, Rejected (Error "trying to call with no keys"))
    | Some kp =>
        (let segments := split "/"%char callString in
         let instanceId := segment segments 0 in
         let zome := segment segments 1 in
         let funcName := segment segments 2 in
         let call := VObj [("method", VStr callString); ("params", args)] in
         signature <- lift (JS.await
                              (JS.of_result (sign kp (JSON_stringify call)))
                              (fun p => p)) ;;
         signatureBase64 <- lift (util.toBase64 signature) ;;
         agentId <- getCurrentAgentId ;;
         fun s' =>
           let callParams :=
             VObj [("agentId", value_of_option agentId);
                   ("happId", value_of_option (_happId s'));
                   ("instanceId", instanceId);
                   ("zome", zome);
                   ("function", funcName);
                   ("args", args);
                   ("signature", VStr signatureBase64)] in
           (s', Fulfilled {| callString := "holo/call";
                             params := callParams |})) s
    end.

(** [triggerLoginPrompt()] called without [await]: the login dialog and
    what follows it run later and are not part of the caller's result. *)
Definition triggerLoginPrompt (s : Session) : Session :=
  {| keypair := keypair s; websocket := websocket s; _happId := _happId s;
     loginPrompts := S (loginPrompts s) |}.

(** The test of [_postCall] inside its [try]: an exception of [JSON.parse]
    or of a property read is caught and logged. *)
Definition authorization_required (response : string) : bool :=
  match JSON_parse response with
  | Throw _ => false
  | Val responseJson =>
      match get_prop responseJson "Err" with
      | Throw _ => false
      | Val err =>
          if truthy err then
            match get_prop err "code" with
            | Throw _ => false
            | Val code => strict_eq_401 code
            end
          else false
      end
  end.

Definition _postCall (response : string) (s : Session) : Session * string :=
  let s' := if authorization_required response then triggerLoginPrompt s
            else s in
  (s', response).

(** [_postConnect]; the keypair generator is the module variable
    [generateReadonlyKeypair], which [setKeyManagementFunctions] may
    replace. *)
Definition _postConnect (generate : promise Keypair) (ws : WebsocketClient)
  : M WebsocketClient :=
  fun s0 =>
    let s := set_websocket (Some ws) s0 in
    (kp <- lift generate ;;
     _ <- sendClientSignature (Some kp) ;;
     fun s' => (s', Fulfilled (match websocket s' with
                               | Some ws' => ws'
                               | None => ws
                               end))) s.

End HClient.

(** ** What the keypair functions evaluate to *)

Section ClosedForms.
Context {sodium : Sodium} {msgpack : Msgpack}.

(** The keypair that [newFromSeed] resolves to. *)
Definition keypair_of_seed (seed : bytes) : Keypair :=
  {| _pubkeys := to_base64 (fst (crypto_sign_seed_keypair seed)
                            ++ fst (crypto_kx_seed_keypair seed))
                           URLSAFE_NO_PADDING;
     _signPub := Some (fst (crypto_sign_seed_keypair seed));
     _encPub := Some (fst (crypto_kx_seed_keypair seed));
     _signPriv := Some (snd (crypto_sign_seed_keypair seed));
     _encPriv := Some (snd (crypto_kx_seed_keypair seed)) |}.

(** The three parts of the box that [pwEnc] makes. *)
Definition box_salt (g : rng) : bytes := fst (randombytes_buf SALTBYTES g).
Definition box_nonce (g : rng) : bytes :=
  fst (randombytes_buf NONCEBYTES (snd (randombytes_buf SALTBYTES g))).
Definition box_cipher (content : bytes) (passphrase : string)
    (adata : option bytes) (g : rng) : bytes :=
  crypto_aead_xchacha20poly1305_ietf_encrypt content adata (box_nonce g)
    (crypto_pwhash 32 passphrase (box_salt g)).

Definition box (content : bytes) (passphrase : string)
    (adata : option bytes) (g : rng) : mp :=
  MMap [("salt", MBin (box_salt g));
        ("nonce", MBin (box_nonce g));
        ("cipher", MBin (box_cipher content passphrase adata g))].

(** The array that [getBundle] serialises. *)
Definition key_fields (k : Keypair) : mp :=
  MArray [mp_of_option (_signPub k); mp_of_option (_encPub k);
          mp_of_option (_signPriv k); mp_of_option (_encPriv k)].

(** A keypair as [newFromSeed] makes them. *)
Definition derived (k : Keypair) : Prop :=
  exists seed, newFromSeed seed = Fulfilled k.

(** The key under which the sender wraps the secret for one recipient. *)
Definition tx_key (sender recipient : bytes) : bytes :=
  sharedTx (crypto_kx_server_session_keys
              (fst (crypto_kx_seed_keypair sender))
              (snd (crypto_kx_seed_keypair sender))
              (fst (crypto_kx_seed_keypair recipient))).

(** The key under which a recipient tries the slots. *)
Definition rx_key (recipient sender : bytes) : bytes :=
  sharedRx (crypto_kx_client_session_keys
              (fst (crypto_kx_seed_keypair recipient))
              (snd (crypto_kx_seed_keypair recipient))
              (fst (crypto_kx_seed_keypair sender))).

(** The (nonce, wrapped secret) slots that the loop of [encrypt] pushes for
    recipients derived from the given seeds, and the tape left. *)
Fixpoint wrapped_secrets (sender symSecret : bytes) (adata : option bytes)
    (recipients : list bytes) (g : rng) : list (bytes * bytes) * rng :=
  match recipients with
  | [] => ([], g)
  | r :: rest =>
      let nonce := fst (randombytes_buf NONCEBYTES g) in
      let cipher :=
        crypto_aead_xchacha20poly1305_ietf_encrypt
          symSecret adata nonce (tx_key sender r) in
      let more :=
        wrapped_secrets sender symSecret adata rest
          (snd (randombytes_buf NONCEBYTES g)) in
      ((nonce, cipher) :: fst more, snd more)
  end.

Fixpoint flat (slots : list (bytes * bytes)) : list bytes :=
  match slots with
  | [] => []
  | (n, c) :: rest => n :: c :: flat rest
  end.

(** One round of the loop of [decrypt] on a slot. *)
Definition try_slot (adata : option bytes) (rx : bytes)
    (symSecret : option bytes) (slot : bytes * bytes) : option bytes :=
  match crypto_aead_xchacha20poly1305_ietf_decrypt
          (snd slot) adata (fst slot) rx with
  | Val s => Some s
  | Throw _ => symSecret
  end.

(** Whether the slot wrapped for [recipient] opens under the key [rx]. *)
Definition opens (rx : bytes) (sender recipient : bytes) : bool :=
  if list_eq_dec Byte.byte_eq_dec (tx_key sender recipient) rx
  then true else false.

End ClosedForms.

(** ** Notions used to state the properties of the session *)

(** A response that encodes [{Err: {code: 401}}]: it parses to an object
    whose [Err] is an object whose [code] is the number 401. *)
Definition encodes_401 {json : Json} (response : string) : Prop :=
  exists fields errFields,
    JSON_parse response = Val (VObj fields) /\
    own_property "Err" fields = VObj errFields /\
    own_property "code" errFields = VNum 401.

(** The functions registered for an event name. *)
Definition listeners_on (event : string) (ls : list (string * listener))
  : list (string * listener) :=
  filter (fun '(name, _) => String.eqb name event) ls.

(** The calls made on the channel of a session. *)
Definition calls_of (s : Session) : list (string * value) :=
  match websocket s with
  | Some ws => calls ws
  | None => []
  end.

(** The arguments of the calls of one method. *)
Definition calls_to (method : string) (s : Session) : list value :=
  map snd (filter (fun '(m, _) => String.eqb m method) (calls_of s)).

(** The [clientSignature] call that answers an event with the signature of
    the keypair [kp]. *)
Definition clientSignature_call {sodium : Sodium} (sk : bytes)
    (ev : SignEvent) : string * value :=
  ("holo/clientSignature",
   VObj [("signature",
          VStr (to_base64 (crypto_sign_detached (entry ev) sk) ORIGINAL));
         ("requestId", id ev)]).

(** A channel after more calls. *)
Definition add_calls (ws : WebsocketClient) (cs : list (string * value))
  : WebsocketClient :=
  {| calls := calls ws ++ cs;
     subscriptions := subscriptions ws;
     listeners := listeners ws |}.

(** The [identify] call of a binding. *)
Definition identify_call (agentId : string) : string * value :=
  ("holo/identify", VObj [("agentId", VStr agentId)]).

(** The session after [kp] was bound on the channel [ws]: the keypair is
    replaced, the channel has one more call, one more subscription and one
    more registered function. *)
Definition bound_session (s : Session) (ws : WebsocketClient)
    (kp : Keypair) (agentId : string) : Session :=
  {| keypair := Some kp;
     websocket :=
       Some {| calls := calls ws ++ [identify_call agentId];
               subscriptions :=
                 subscriptions ws ++ [sign_event_name (Some agentId)];
               listeners :=
                 listeners ws ++ [(sign_event_name (Some agentId),
                                   SignOnRequest)] |};
     _happId := _happId s;
     loginPrompts := loginPrompts s |}.

(** ** What the proofs assume of the libraries *)

Section Laws.
Context {sodium : Sodium} {msgpack : Msgpack}.

(** The one-time initialisation of the library has succeeded. *)
Definition sodium_ready : Prop := ready = Fulfilled tt.

Definition base64_round_trip : Prop :=
  forall b v, from_base64 (to_base64 b v) v = Val b.

(** Public keys are 32 bytes long. *)
Definition public_keys_32 : Prop :=
  forall seed,
    List.length (fst (crypto_sign_seed_keypair seed)) = 32 /\
    List.length (fst (crypto_kx_seed_keypair seed)) = 32.

(** The private key of the key exchange is 32 bytes long. *)
Definition kx_secret_keys_32 : Prop :=
  forall seed, List.length (snd (crypto_kx_seed_keypair seed)) = 32.

(** [to_string] decodes UTF-8 and nothing else: it throws on other bytes,
    and gives back a string that does not start with a byte order mark. *)
Definition to_string_strict : Prop :=
  (forall b, utf8_valid b = false -> exists e, to_string b = Throw e) /\
  (forall b, utf8_valid b = true -> utf8_bom b = false ->
     to_string b = Val (string_of_list_byte b)).

Definition signatures_verify : Prop :=
  forall seed msg,
    crypto_sign_verify_detached
      (crypto_sign_detached msg (snd (crypto_sign_seed_keypair seed)))
      msg (fst (crypto_sign_seed_keypair seed)) = true.

(** What the server side sends with is what the client side receives
    with. *)
Definition kx_agreement : Prop :=
  forall server client,
    let '(spk, ssk) := crypto_kx_seed_keypair server in
    let '(cpk, csk) := crypto_kx_seed_keypair client in
    sharedRx (crypto_kx_client_session_keys cpk csk spk) =
    sharedTx (crypto_kx_server_session_keys spk ssk cpk).

(** Idealised: another client key gives another session key. *)
Definition kx_separation : Prop :=
  forall server client other,
    let '(spk, ssk) := crypto_kx_seed_keypair server in
    let '(cpk, csk) := crypto_kx_seed_keypair client in
    let '(opk, osk) := crypto_kx_seed_keypair other in
    opk <> cpk ->
    sharedRx (crypto_kx_client_session_keys opk osk spk) <>
    sharedTx (crypto_kx_server_session_keys spk ssk cpk).

Definition aead_round_trip : Prop :=
  forall m ad n k,
    crypto_aead_xchacha20poly1305_ietf_decrypt
      (crypto_aead_xchacha20poly1305_ietf_encrypt m ad n k) ad n k = Val m.

(** Idealised: a ciphertext does not open under another key. *)
Definition aead_wrong_key : Prop :=
  forall m ad n k ad' n' k',
    k' <> k ->
    exists e,
      crypto_aead_xchacha20poly1305_ietf_decrypt
        (crypto_aead_xchacha20poly1305_ietf_encrypt m ad n k) ad' n' k'
      = Throw e.

(** Idealised: with one salt, two passphrases do not hash to one key. *)
Definition pwhash_injective : Prop :=
  forall len p p' s, crypto_pwhash len p s = crypto_pwhash len p' s -> p = p'.

Definition msgpack_round_trip : Prop :=
  forall doc, msgpack_decode (msgpack_encode doc) = Val doc.

End Laws.

(** ** A small model of the libraries

    Executable stand-ins with the properties above, on which the statements
    below are run. *)

Module Toy.

Definition fit32 (b : bytes) : bytes := firstn 32 (b ++ repeat x00 32).

(** A sealed box: the key, each byte behind a [x01] mark, a [x00] mark,
    then the content. *)
Fixpoint seal (k m : bytes) : bytes :=
  match k with
  | [] => x00 :: m
  | kb :: k' => x01 :: kb :: seal k' m
  end.

Fixpoint open (k c : bytes) : option bytes :=
  match k, c with
  | [], t :: m => if Byte.eqb t x00 then Some m else None
  | kb :: k', t :: cb :: c' =>
      if Byte.eqb t x01 && Byte.eqb kb cb then open k' c' else None
  | _, _ => None
  end.

Fixpoint bytes_eqb (a b : bytes) : bool :=
  match a, b with
  | [], [] => true
  | x :: a', y :: b' => Byte.eqb x y && bytes_eqb a' b'
  | _, _ => false
  end.

#[export] Instance sodium : Sodium := {|
  ready := Fulfilled tt;
  to_base64 := fun b _ => string_of_list_byte b;
  from_base64 := fun s _ => Val (list_byte_of_string s);
  to_string := fun b =>
    if utf8_valid b
    then Val (string_of_list_byte (if utf8_bom b then skipn 3 b else b))
    else Throw (TypeError "The encoded data was not valid.");
  crypto_sign_seed_keypair := fun seed => (fit32 seed, fit32 seed);
  crypto_kx_seed_keypair := fun seed => (fit32 seed, fit32 seed);
  crypto_sign_detached := fun msg sk => sk ++ list_byte_of_string msg;
  crypto_sign_verify_detached := fun sig msg pk =>
    bytes_eqb sig (pk ++ list_byte_of_string msg);
  crypto_kx_server_session_keys := fun spk _ cpk =>
    {| sharedRx := cpk ++ spk; sharedTx := spk ++ cpk |};
  crypto_kx_client_session_keys := fun cpk _ spk =>
    {| sharedRx := spk ++ cpk; sharedTx := cpk ++ spk |};
  crypto_aead_xchacha20poly1305_ietf_encrypt := fun m _ _ k => seal k m;
  crypto_aead_xchacha20poly1305_ietf_decrypt := fun c _ _ k =>
    match open k c with
    | Some m => Val m
    | None => Throw (SodiumError "ciphertext cannot be decrypted using that key")
    end;
  crypto_pwhash := fun _ pass s => list_byte_of_string pass ++ s
|}.

(** Byte arrays framed so that their end can be found. *)
Fixpoint frame (b rest : bytes) : bytes :=
  match b with
  | [] => x00 :: rest
  | x :: b' => x01 :: x :: frame b' rest
  end.

Fixpoint unframe (c : bytes) : option (bytes * bytes) :=
  match c with
  | t :: c1 =>
      if Byte.eqb t x00 then Some ([], c1)
      else match c1 with
           | x :: c' =>
               match unframe c' with
               | Some (b, rest) => Some (x :: b, rest)
               | None => None
               end
           | [] => None
           end
  | [] => None
  end.

(** A number is written as that many bytes. *)
Definition put_val (v : mpval) (rest : bytes) : bytes :=
  match v with
  | MNil => x00 :: rest
  | MBin b => x01 :: frame b rest
  | MNum n => x02 :: frame (repeat x00 (Pos.to_nat n)) rest
  end.

Definition get_val (c : bytes) : option (mpval * bytes) :=
  match c with
  | t :: c1 =>
      if Byte.eqb t x00 then Some (MNil, c1)
      else match unframe c1 with
           | Some (b, rest) =>
               if Byte.eqb t x01 then Some (MBin b, rest)
               else Some (MNum (Pos.of_nat (List.length b)), rest)
           | None => None
           end
  | [] => None
  end.

Fixpoint put_items (items : list mpval) : bytes :=
  match items with
  | [] => [x00]
  | v :: items' => x01 :: put_val v (put_items items')
  end.

Fixpoint get_items (fuel : nat) (c : bytes) : option (list mpval) :=
  match fuel, c with
  | S fuel', t :: c1 =>
      if Byte.eqb t x00 then Some []
      else match get_val c1 with
           | Some (v, rest) =>
               match get_items fuel' rest with
               | Some items => Some (v :: items)
               | None => None
               end
           | None => None
           end
  | _, _ => None
  end.

Fixpoint put_fields (fields : list (string * mpval)) : bytes :=
  match fields with
  | [] => [x00]
  | (k, v) :: fields' =>
      x01 :: frame (list_byte_of_string k) (put_val v (put_fields fields'))
  end.

Fixpoint get_fields (fuel : nat) (c : bytes)
  : option (list (string * mpval)) :=
  match fuel, c with
  | S fuel', t :: c1 =>
      if Byte.eqb t x00 then Some []
      else match unframe c1 with
           | Some (k, c2) =>
               match get_val c2 with
               | Some (v, rest) =>
                   match get_fields fuel' rest with
                   | Some fields =>
                       Some ((string_of_list_byte k, v) :: fields)
                   | None => None
                   end
               | None => None
               end
           | None => None
           end
  | _, _ => None
  end.

Definition encode (doc : mp) : bytes :=
  match doc with
  | MArray items => x00 :: put_items items
  | MMap fields => x01 :: put_fields fields
  end.

Definition decode (c : bytes) : result mp :=
  match c with
  | t :: c1 =>
      if Byte.eqb t x00 then
        match get_items (List.length c1) c1 with
        | Some items => Val (MArray items)
        | None => Throw (Error "malformed document")
        end
      else
        match get_fields (List.length c1) c1 with
        | Some fields => Val (MMap fields)
        | None => Throw (Error "malformed document")
        end
  | [] => Throw (Error "malformed document")
  end.

#[export] Instance msgpack : Msgpack := {|
  msgpack_encode := encode;
  msgpack_decode := decode
|}.

(** Only calls and the one response of the examples are serialised. *)
#[export] Instance json : Json := {|
  JSON_parse := fun s =>
    if String.eqb s "{Err:{code:401}}"
    then Val (VObj [("Err", VObj [("code", VNum 401)])])
    else if String.eqb s "{Ok:true}" then Val (VObj [("Ok", VBool true)])
    else Throw (SyntaxError "Unexpected token");
  JSON_stringify := fun v =>
    match v with
    | VObj (("method", VStr m) :: _) => m
    | _ => "null"
    end
|}.

#[export] Instance hcid : Hcid := {|
  hcs0_encode := fun o =>
    match o with
    | Some b => Val ("Hc" ++ string_of_list_byte b)%string
    | None => Throw (TypeError "not a buffer")
    end
|}.

(** A host that answers every call. *)
Definition host (method : string) (args : value) : promise value :=
  Fulfilled (VObj [("Ok", VBool true)]).

Definition zeros : rng := fun _ => x00.

Definition seed1 : bytes := repeat x01 32.
Definition seed2 : bytes := repeat x02 32.
Definition seed3 : bytes := repeat x03 32.

(** [Keypair.newFromSeed(seed)] evaluated. *)
Definition keypair_of (seed : bytes) : Keypair :=
  {| _pubkeys := string_of_list_byte (fit32 seed ++ fit32 seed);
     _signPub := Some (fit32 seed);
     _encPub := Some (fit32 seed);
     _signPriv := Some (fit32 seed);
     _encPriv := Some (fit32 seed) |}.

Definition open_channel : WebsocketClient :=
  {| calls := []; subscriptions := []; listeners := [] |}.

Definition fresh_session : Session :=
  {| keypair := None; websocket := Some open_channel; _happId := None;
     loginPrompts := 0 |}.

End Toy.

(** ** More of [src/keyManagement.ts]: the salt service *)

(** The browser functions the salt service calls go through, and what
    every object inherits: [Object_prototype name] is the member of
    [Object.prototype] of that name ([constructor], [toString],
    [__proto__], ...) converted to a string, and [None] for a name that
    [Object.prototype] does not have. *)
Class Web : Type := {
  encodeURIComponent : string -> string;
  Object_prototype : string -> option string
}.

Record Request : Type := {
  url : string;
  http_method : string;
  body : option string
}.

Record Response : Type := { text : promise string }.

(** [parts.join(sep)] *)
Fixpoint join (sep : string) (parts : list string) : string :=
  match parts with
  | [] => EmptyString
  | [p] => p
  | p :: rest => (p ++ sep ++ join sep rest)%string
  end.

(** The own property of an object literal whose values are strings. *)
Fixpoint own_param (key : string) (params : list (string * string))
  : option string :=
  match params with
  | [] => None
  | (k, v) :: rest => if String.eqb k key then Some v else own_param key rest
  end.

(** [params[key]], converted to a string where it is found: an own
    property first, then what the object inherits. *)
Definition param {web : Web} (key : string) (params : list (string * string))
  : option string :=
  match own_param key params with
  | Some v => Some v
  | None => Object_prototype key
  end.

(** A value that may be [undefined], used as a string. *)
Definition String_of (o : option string) : string :=
  match o with
  | Some s => s
  | None => "undefined"
  end.

(** What a salt callback resolves to: a string or a byte array. *)
Inductive salt_value : Type :=
| SaltString (s : string)
| SaltBytes (b : bytes).

(** [str.slice(lo, hi)] of a string, for [0 <= lo <= hi]. *)
Definition string_slice (str : string) (lo hi : nat) : string :=
  String.substring lo (hi - lo) str.

Definition salt_slice (v : salt_value) (lo hi : nat) : salt_value :=
  match v with
  | SaltString s => SaltString (string_slice s lo hi)
  | SaltBytes b => SaltBytes (slice b lo hi)
  end.

(** The [salt] argument of [pwHash]: the empty string is falsy, a non-empty
    string is read as its bytes, a byte array is never falsy. *)
Definition salt_argument (v : salt_value) : option bytes :=
  match v with
  | SaltString EmptyString => None
  | SaltString s => Some (Buffer_from s)
  | SaltBytes b => Some b
  end.

Section SaltService.
Context {sodium : Sodium} {msgpack : Msgpack} {web : Web}.

(** The network. *)
Variable fetch : Request -> promise Response.

(** [callSaltmine(method, params)].  The module variable [saltmineUrl] is
    passed in and returned; the call throws when [Object.keys] is given
    [undefined]. *)
Definition callSaltmine (method : string)
    (params : option (list (string * string))) (saltmineUrl : string)
  : string * result (promise Response) :=
  if String.eqb method "GET" then
    match params with
    | None =>
        (saltmineUrl,
         Val (fetch {| url := saltmineUrl; http_method := method;
                       body := None |}))
    | Some ps =>
        let email := param "email" ps in
        let saltmineUrl' :=
          (saltmineUrl ++ "?" ++ encodeURIComponent (String_of email) ++ "="
           ++ encodeURIComponent (String_of (param (String_of email) ps)))
          %string in
        (saltmineUrl',
         Val (fetch {| url := saltmineUrl'; http_method := method;
                       body := None |}))
    end
  else
    match params with
    | None =>
        (saltmineUrl,
         Throw (TypeError "Cannot convert undefined or null to object"))
    | Some ps =>
        let body :=
          join "&"
            (map (fun '(key, v) =>
                    (encodeURIComponent key ++ "=" ++ encodeURIComponent v)
                    %string) ps) in
        (saltmineUrl,
         Val (fetch {| url := saltmineUrl; http_method := method;
                       body := Some body |}))
    end.

(** [.then(r => r.text()).then(fromBase64)
     .then((buffer) => new Uint8Array(buffer).slice(0, 32))] *)
Definition first_32_bytes (answer : promise Response) : promise bytes :=
  JS.then_
    (JS.then_
       (JS.then_ answer (fun r => Val (text r)))
       (fun str => Val (util.fromBase64 str)))
    (fun buffer => Val (Fulfilled (slice buffer 0 32))).

Definition through_saltmine (called : string * result (promise Response))
  : string * result (promise bytes) :=
  (fst called,
   match snd called with
   | Val answer => Val (first_32_bytes answer)
   | Throw e => Throw e
   end).

Definition getRemoteEntropy (saltmineUrl : string)
  : string * result (promise bytes) :=
  through_saltmine (callSaltmine "GET" None saltmineUrl).

Definition registerSalt (email salt0 : string) (saltmineUrl : string)
  : string * result (promise bytes) :=
  through_saltmine
    (callSaltmine "POST" (Some [("email", email); ("salt", salt0)])
       saltmineUrl).

Definition getRegisteredSalt (email : string) (saltmineUrl : string)
  : string * result (promise bytes) :=
  through_saltmine (callSaltmine "GET" (Some [("email", email)]) saltmineUrl).

(** [generateNewReadwriteKeypair]; the entropy generators and the
    registration callback are its arguments. *)
Definition generateNewReadwriteKeypair (email password : string)
    (remoteEntropyGenerator localEntropyGenerator : promise bytes)
    (saltRegistrationCallback : string -> string -> promise salt_value)
    (g : rng) : promise Keypair :=
  JS.await remoteEntropyGenerator (fun remoteEntropy =>
  JS.await localEntropyGenerator (fun localEntropy =>
  let saltBytes := XorUint8Array remoteEntropy localEntropy in
  JS.await (util.toBase64 saltBytes) (fun saltString =>
  JS.await
    (JS.try_catch (saltRegistrationCallback email saltString)
       (fun e => Fulfilled (SaltString saltString)))
    (fun registeredSalt =>
  JS.await (util.pwHash password
              (salt_argument (salt_slice registeredSalt 0 16)) g)
    (fun '(pw, _) =>
  JS.await (newFromSeed (hash pw)) (fun keypair =>
  Fulfilled keypair)))))).

End SaltService.

(** ** More of [src/index.ts] *)

Definition set_happId (h : option string) (s : Session) : Session :=
  {| keypair := keypair s; websocket := websocket s; _happId := h;
     loginPrompts := loginPrompts s |}.

(** The optional arguments of [makeWebClient] that are not functions. *)
Record MakeWebClientOptionals : Type := {
  hostUrl : option string;
  hAppUrl : option string;
  happId : option string
}.

(** [a || b] on strings that may be [undefined]: the empty string is
    falsy. *)
Definition string_or (a : option string) (b : option string)
  : option string :=
  match a with
  | Some EmptyString => b
  | Some s => Some s
  | None => b
  end.

Section HClientMore.
Context {sodium : Sodium} {msgpack : Msgpack} {json : Json} {hcid : Hcid}.

Variable host : string -> value -> promise value.

Definition requestHosting : M value :=
  fun s =>
    match websocket s with
    | Some _ =>
        (agentId <- getCurrentAgentId ;;
         fun s' =>
           websocket_call host "holo/agents/new"
             (VObj [("agentId", value_of_option agentId);
                    ("happId", value_of_option (_happId s'))]) s') s
    | None =>
        (s, Rejected (Error "Cannot request registration with no websocket"))
    end.

(** [startLoginProcess]; the two key generators are the module variables
    that [setKeyManagementFunctions] may replace.  What they resolve to is
    passed on as it is, also when it is [undefined]. *)
Definition startLoginProcess
    (generateNew regenerate : string -> string -> promise (option Keypair))
    (email password : string) (newRegistration : bool) : M bool :=
  kp <- lift (if newRegistration then generateNew email password
              else regenerate email password) ;;
  _ <- sendClientSignature host kp ;;
  _ <- requestHosting ;;
  ret true.

(** The resolver, [window.location.origin], and the [call] function that
    [holochainClient.connect] resolved to. *)
Variable getHostsForUrl : string -> promise (list string).
Variable getHashForUrl : string -> promise string.
Variable origin : string.
Variable inner_call : string -> value -> promise string.

(** [getHostForUrl]: the hash is only looked up when neither [_happId] nor
    [happId] is truthy. *)
Definition getHostForUrl (url0 : string) (happId0 : option string)
  : M string :=
  hosts <- lift (getHostsForUrl url0) ;;
  fun s =>
    (hhaHappId <- match string_or (_happId s) happId0 with
                  | Some h => ret h
                  | None => lift (getHashForUrl url0)
                  end ;;
     ret ("ws://" ++ hhaHappId ++ "." ++ String_of (nth_error hosts 0))
         %string) s.

(** The part of [makeWebClient] before it returns the client: choosing the
    host url and setting [_happId]. *)
Definition makeWebClient_setup (optionals : MakeWebClientOptionals)
  : M string :=
  hostUrl0 <- match hostUrl optionals with
              | None =>
                  let HappBundleDNS :=
                    String_of (string_or (hAppUrl optionals) (Some origin)) in
                  let HappBundleHash := string_or (happId optionals) None in
                  getHostForUrl HappBundleDNS HappBundleHash
              | Some given => ret given
              end ;;
  _ <- match string_or (happId optionals) None with
       | Some h => fun s => (set_happId (Some h) s, Fulfilled tt)
       | None =>
           let HappBundleDNS :=
             String_of (string_or (hAppUrl optionals) (Some origin)) in
           h <- lift (getHashForUrl HappBundleDNS) ;;
           fun s => (set_happId (Some h) s, Fulfilled tt)
       end ;;
  ret hostUrl0.




End HClientMore.

(** ** Notions used to state further properties *)


(** A keypair that holds public keys only, as made from an identity string
    that was received. *)
Definition public_only (identity : string) : Keypair :=
  {| _pubkeys := identity; _signPub := None; _encPub := None;
     _signPriv := None; _encPriv := None |}.

(** ** More of the small model *)

Module ToyMore.

(** The small model with a decoder that refuses one string. *)
Definition strict_sodium : Sodium :=
  {| ready := Fulfilled tt;
     to_base64 := @to_base64 Toy.sodium;
     from_base64 := fun s v =>
       if String.eqb s "not base64!"
       then Throw (SodiumError "invalid input")
       else @from_base64 Toy.sodium s v;
     to_string := @to_string Toy.sodium;
     crypto_sign_seed_keypair := @crypto_sign_seed_keypair Toy.sodium;
     crypto_kx_seed_keypair := @crypto_kx_seed_keypair Toy.sodium;
     crypto_sign_detached := @crypto_sign_detached Toy.sodium;
     crypto_sign_verify_detached := @crypto_sign_verify_detached Toy.sodium;
     crypto_kx_server_session_keys :=
       @crypto_kx_server_session_keys Toy.sodium;
     crypto_kx_client_session_keys :=
       @crypto_kx_client_session_keys Toy.sodium;
     crypto_aead_xchacha20poly1305_ietf_encrypt :=
       @crypto_aead_xchacha20poly1305_ietf_encrypt Toy.sodium;
     crypto_aead_xchacha20poly1305_ietf_decrypt :=
       @crypto_aead_xchacha20poly1305_ietf_decrypt Toy.sodium;
     crypto_pwhash := @crypto_pwhash Toy.sodium |}.

(** Strings are sent as they are; objects inherit the members that the
    language gives [Object.prototype]. *)
Definition web : Web :=
  {| encodeURIComponent := fun s => s;
     Object_prototype := fun name =>
       if existsb (String.eqb name)
            ["constructor"; "hasOwnProperty"; "isPrototypeOf";
             "propertyIsEnumerable"; "toLocaleString"; "toString"; "valueOf";
             "__defineGetter__"; "__defineSetter__"; "__lookupGetter__";
             "__lookupSetter__"]
       then Some ("function " ++ name ++ "() { [native code] }")%string
       else if String.eqb name "__proto__" then Some "[object Object]"
       else None |}.

(** A salt service that answers every request with the same text. *)
Definition fetch (request : Request) : promise Response :=
  Fulfilled {| text := Fulfilled "c2FsdA" |}.

(** A keypair with its public keys and without its private keys. *)
Definition public_keys_of (seed : bytes) : Keypair :=
  {| _pubkeys := "an identity";
     _signPub := Some (Toy.fit32 seed);
     _encPub := Some (Toy.fit32 seed);
     _signPriv := None;
     _encPriv := None |}.

(** A host that refuses every call. *)
Definition deaf_host (method : string) (args : value) : promise value :=
  Rejected (Error "connection closed").

(** A resolver, and one that is down. *)
Definition hosts_of (url0 : string) : promise (list string) :=
  Fulfilled ["host1.holohost.net"; "host2.holohost.net"].
Definition hash_of (url0 : string) : promise string :=
  Fulfilled "QmResolved".
Definition no_hosts (url0 : string) : promise (list string) :=
  Rejected (Error "resolver down").
Definition no_hash (url0 : string) : promise string :=
  Rejected (Error "resolver down").


End ToyMore.

(** * Properties *)

Unset Implicit Arguments.

Lemma byte_to_Z_range (b : byte) : (0 <= byte_to_Z b < 256)%Z.
Proof.
  unfold byte_to_Z. pose proof (Byte.to_N_bounded b) as H. lia.
Qed.

Lemma uint8_byte_to_Z (b : byte) : uint8 (byte_to_Z b) = b.
Proof.
  unfold uint8. pose proof (byte_to_Z_range b) as H.
  rewrite Z.mod_small by assumption.
  unfold byte_to_Z. rewrite N2Z.id, Byte.of_to_N. reflexivity.
Qed.

Lemma byte_to_Z_uint8 (z : Z) : byte_to_Z (uint8 z) = (z mod 256)%Z.
Proof.
  unfold uint8, byte_to_Z.
  assert (Hr : (0 <= z mod 256 < 256)%Z) by (apply Z.mod_pos_bound; lia).
  destruct (Byte.of_N (Z.to_N (z mod 256))) as [b|] eqn:E.
  - apply Byte.to_of_N in E. rewrite E. rewrite Z2N.id; lia.
  - apply Byte.of_N_None_iff in E. lia.
Qed.

Lemma lxor_uint8_small (x y : Z) :
  (0 <= x < 256)%Z -> (0 <= y < 256)%Z -> (Z.lxor x y mod 256 = Z.lxor x y)%Z.
Proof.
  intros Hx Hy. change 256%Z with (2 ^ 8)%Z.
  apply Z.bits_inj'. intros n Hn.
  destruct (Z_lt_ge_dec n 8) as [Hlt|Hge].
  - rewrite Z.mod_pow2_bits_low by lia. reflexivity.
  - rewrite Z.mod_pow2_bits_high by lia.
    rewrite Z.lxor_spec.
    rewrite <- (Z.mod_small x (2 ^ 8)) by (change (2 ^ 8)%Z with 256%Z; lia).
    rewrite <- (Z.mod_small y (2 ^ 8)) by (change (2 ^ 8)%Z with 256%Z; lia).
    rewrite !Z.mod_pow2_bits_high by lia. reflexivity.
Qed.

Lemma index_int_range (a : bytes) (i : nat) : (0 <= index_int a i < 256)%Z.
Proof.
  unfold index_int. destruct (nth_error a i); [apply byte_to_Z_range | lia].
Qed.

Lemma XorUint8Array_length (a b : bytes) :
  List.length (XorUint8Array a b) = List.length a.
Proof.
  unfold XorUint8Array. rewrite length_map, length_seq. reflexivity.
Qed.

Lemma XorUint8Array_index (a b : bytes) (i : nat) :
  i < List.length a ->
  index_int (XorUint8Array a b) i = Z.lxor (index_int a i) (index_int b i).
Proof.
  intros Hi. unfold XorUint8Array, index_int at 1.
  rewrite nth_error_map, nth_error_seq.
  destruct (Nat.ltb_spec i (List.length a)) as [_|Hge]; [|lia].
  cbn. rewrite byte_to_Z_uint8.
  apply lxor_uint8_small; apply index_int_range.
Qed.

Lemma bytes_ext (a b : bytes) :
  List.length a = List.length b ->
  (forall i, i < List.length a -> nth_error a i = nth_error b i) ->
  a = b.
Proof.
  revert b. induction a as [|x a IH]; intros [|y b] Hlen Hnth; cbn in *;
    try reflexivity; try discriminate.
  f_equal.
  - specialize (Hnth 0 ltac:(lia)). cbn in Hnth. congruence.
  - apply IH; [lia|]. intros i Hi. apply (Hnth (S i)). lia.
Qed.

Lemma XorUint8Array_involutive (a b : bytes) :
  XorUint8Array (XorUint8Array a b) b = a.
Proof.
  apply bytes_ext.
  - rewrite !XorUint8Array_length. reflexivity.
  - intros i Hi. rewrite !XorUint8Array_length in Hi.
    unfold XorUint8Array at 1.
    rewrite nth_error_map, nth_error_seq, XorUint8Array_length.
    destruct (Nat.ltb_spec i (List.length a)) as [_|Hge]; [|lia].
    cbn. rewrite XorUint8Array_index by assumption.
    rewrite Z.lxor_assoc, Z.lxor_nilpotent, Z.lxor_0_r.
    unfold index_int.
    destruct (nth_error a i) as [x|] eqn:E.
    + rewrite uint8_byte_to_Z. reflexivity.
    + apply nth_error_None in E. lia.
Qed.

(** C8: for 32-byte arrays [a] and [b], combining [a] with [b] and the result
    with [b] again gives [a] back, and every byte of the combination is the
    exclusive-or of the two bytes at that index. *)
Theorem C8_XorUint8Array_self_inverse (a b : bytes) :
  List.length a = 32 -> List.length b = 32 ->
  XorUint8Array (XorUint8Array a b) b = a /\
  List.length (XorUint8Array a b) = 32 /\
  forall i, i < 32 ->
    index_int (XorUint8Array a b) i = Z.lxor (index_int a i) (index_int b i).
Proof.
  intros Ha Hb. split; [apply XorUint8Array_involutive|].
  split; [rewrite XorUint8Array_length; exact Ha|].
  intros i Hi. apply XorUint8Array_index. lia.
Qed.

Lemma C8_XorUint8Array_self_inverse_witness :
  XorUint8Array (XorUint8Array (repeat x00 32) (repeat xff 32))
                (repeat xff 32) = repeat x00 32 /\
  List.length (XorUint8Array (repeat x00 32) (repeat xff 32)) = 32 /\
  forall i, i < 32 ->
    index_int (XorUint8Array (repeat x00 32) (repeat xff 32)) i
    = Z.lxor (index_int (repeat x00 32) i) (index_int (repeat xff 32) i).
Proof.
  apply (C8_XorUint8Array_self_inverse (repeat x00 32) (repeat xff 32));
    reflexivity.
Defined.

(** ** The small model has the assumed properties *)

Module ToyFacts.
Import Toy.

Lemma fit32_length (b : bytes) : List.length (fit32 b) = 32.
Proof.
  unfold fit32. rewrite length_firstn, length_app, repeat_length. lia.
Qed.

Lemma toy_ready : sodium_ready.
Proof. reflexivity. Qed.

Lemma toy_base64 : base64_round_trip.
Proof.
  intros b v.
  change (Val (list_byte_of_string (string_of_list_byte b)) = Val b).
  rewrite list_byte_of_string_of_list_byte. reflexivity.
Qed.

Lemma toy_kx_secret_keys_32 : kx_secret_keys_32.
Proof. intros seed. apply fit32_length. Qed.

Lemma toy_to_string_strict : to_string_strict.
Proof.
  split.
  - intros b Hb. cbn. rewrite Hb. eexists. reflexivity.
  - intros b Hb Hbom. cbn. rewrite Hb, Hbom. reflexivity.
Qed.

Lemma toy_public_keys_32 : public_keys_32.
Proof. intros seed. cbn. split; apply fit32_length. Qed.

Lemma byte_eqb_refl (b : byte) : Byte.eqb b b = true.
Proof. apply Byte.byte_dec_lb. reflexivity. Qed.

Lemma bytes_eqb_refl (a : bytes) : bytes_eqb a a = true.
Proof.
  induction a as [|x a IH]; cbn; [reflexivity|].
  rewrite byte_eqb_refl, IH. reflexivity.
Qed.

Lemma toy_signatures_verify : signatures_verify.
Proof. intros seed msg. apply bytes_eqb_refl. Qed.

Lemma toy_kx_agreement : kx_agreement.
Proof. intros server client. reflexivity. Qed.

Lemma toy_kx_separation : kx_separation.
Proof.
  intros server client other. cbn. intros Hne Heq.
  apply app_inv_head in Heq. contradiction.
Qed.

Lemma open_seal (k m : bytes) : open k (seal k m) = Some m.
Proof.
  induction k as [|kb k IH]; cbn; [reflexivity|].
  rewrite byte_eqb_refl. exact IH.
Qed.

Lemma open_seal_inv (k k' m m' : bytes) :
  open k' (seal k m) = Some m' -> k' = k.
Proof.
  revert k'. induction k as [|kb k IH]; intros [|kb' k'] H; cbn in H;
    try reflexivity; try discriminate.
  - destruct m as [|x m]; discriminate.
  - destruct (Byte.eqb kb' kb) eqn:E; [|discriminate].
    apply Byte.byte_dec_bl in E. subst kb'. f_equal. apply IH. exact H.
Qed.

Lemma toy_aead_round_trip : aead_round_trip.
Proof. intros m ad n k. cbn. rewrite open_seal. reflexivity. Qed.

Lemma toy_aead_wrong_key : aead_wrong_key.
Proof.
  intros m ad n k ad' n' k' Hne. cbn.
  destruct (open k' (seal k m)) as [m'|] eqn:E.
  - apply open_seal_inv in E. contradiction.
  - eexists. reflexivity.
Qed.

Lemma list_byte_of_string_inj (p q : string) :
  list_byte_of_string p = list_byte_of_string q -> p = q.
Proof.
  intros H. rewrite <- (string_of_list_byte_of_string p),
    <- (string_of_list_byte_of_string q), H. reflexivity.
Qed.

Lemma toy_pwhash_injective : pwhash_injective.
Proof.
  intros len p p' s H. cbn in H. apply app_inv_tail in H.
  apply list_byte_of_string_inj. exact H.
Qed.

Lemma unframe_frame (b rest : bytes) : unframe (frame b rest) = Some (b, rest).
Proof.
  induction b as [|x b IH]; cbn; [reflexivity|]. rewrite IH. reflexivity.
Qed.

Lemma get_val_put_val (v : mpval) (rest : bytes) :
  get_val (put_val v rest) = Some (v, rest).
Proof.
  destruct v as [|b|n]; cbn; [reflexivity| |]; rewrite unframe_frame;
    [reflexivity|].
  rewrite repeat_length, Pos2Nat.id. reflexivity.
Qed.

Lemma frame_length (b rest : bytes) :
  List.length rest < List.length (frame b rest).
Proof. induction b as [|x b IH]; cbn; lia. Qed.

Lemma put_val_length (v : mpval) (rest : bytes) :
  List.length rest < List.length (put_val v rest).
Proof.
  destruct v as [|b|n]; cbn; [lia| |].
  - pose proof (frame_length b rest). lia.
  - pose proof (frame_length (repeat x00 (Pos.to_nat n)) rest). lia.
Qed.

Lemma put_items_length (items : list mpval) :
  List.length items < List.length (put_items items).
Proof.
  induction items as [|v items IH]; cbn; [lia|].
  pose proof (put_val_length v (put_items items)). lia.
Qed.

Lemma get_items_put_items (items : list mpval) (fuel : nat) :
  List.length items < fuel -> get_items fuel (put_items items) = Some items.
Proof.
  revert fuel. induction items as [|v items IH]; intros [|fuel] Hf;
    cbn in *; try lia; try reflexivity.
  rewrite get_val_put_val, IH by lia. reflexivity.
Qed.

Lemma put_fields_length (fields : list (string * mpval)) :
  List.length fields < List.length (put_fields fields).
Proof.
  induction fields as [|[k v] fields IH]; cbn; [lia|].
  pose proof (frame_length (list_byte_of_string k)
                (put_val v (put_fields fields))).
  pose proof (put_val_length v (put_fields fields)). lia.
Qed.

Lemma get_fields_put_fields (fields : list (string * mpval)) (fuel : nat) :
  List.length fields < fuel ->
  get_fields fuel (put_fields fields) = Some fields.
Proof.
  revert fuel. induction fields as [|[k v] fields IH]; intros [|fuel] Hf;
    cbn in *; try lia; try reflexivity.
  rewrite unframe_frame, get_val_put_val, IH by lia.
  rewrite string_of_list_byte_of_string. reflexivity.
Qed.

Lemma toy_msgpack : msgpack_round_trip.
Proof.
  intros [items|fields]; cbn.
  - rewrite get_items_put_items by apply put_items_length. reflexivity.
  - rewrite get_fields_put_fields by apply put_fields_length. reflexivity.
Qed.

End ToyFacts.

(** ** The keypair primitive *)

Section KeypairFacts.
Context {sodium : Sodium} {msgpack : Msgpack}.
Hypothesis Hready : sodium_ready.

Lemma randombytes_buf_length (count : nat) (g : rng) :
  List.length (fst (randombytes_buf count g)) = count.
Proof. cbn. rewrite length_map, length_seq. reflexivity. Qed.

Lemma encodeId_some (a b : bytes) :
  util.encodeId (Some a) (Some b)
  = Fulfilled (to_base64 (a ++ b) URLSAFE_NO_PADDING).
Proof. unfold util.encodeId. rewrite Hready. reflexivity. Qed.

Lemma encodeId_none_l (b : option bytes) : util.encodeId None b = Pending.
Proof. unfold util.encodeId. rewrite Hready. reflexivity. Qed.

Lemma newFromSeed_eq (seed : bytes) :
  newFromSeed seed = Fulfilled (keypair_of_seed seed).
Proof.
  unfold newFromSeed, keypair_of_seed. rewrite Hready.
  cbn [JS.then_dropped].
  destruct (crypto_sign_seed_keypair seed) as [spk ssk].
  destruct (crypto_kx_seed_keypair seed) as [epk esk].
  rewrite encodeId_some. reflexivity.
Qed.

Lemma pwHash_eq (pass : string) (salt0 : option bytes) (g : rng) :
  match salt0 with
  | Some s => List.length s = 16
  | None => True
  end ->
  util.pwHash pass salt0 g
  = Fulfilled
      (let sg := match salt0 with
                 | Some s => (s, g)
                 | None => randombytes_buf SALTBYTES g
                 end in
       ({| salt := fst sg; hash := crypto_pwhash 32 pass (fst sg) |}, snd sg)).
Proof.
  intros Hsize. unfold util.pwHash. rewrite Hready.
  destruct salt0 as [s|]; cbn [JS.then_dropped].
  - rewrite Hsize. reflexivity.
  - pose proof (randombytes_buf_length SALTBYTES g) as Hl.
    destruct (randombytes_buf SALTBYTES g) as [s g1]. cbn [fst] in Hl.
    rewrite Hl. reflexivity.
Qed.

(** A salt of another length leaves the promise of [pwHash] unsettled. *)
Lemma pwHash_wrong_size (pass : string) (s : bytes) (g : rng) :
  List.length s <> 16 -> util.pwHash pass (Some s) g = Pending.
Proof.
  intros Hsize. unfold util.pwHash.
  destruct ready as [[]| |]; try reflexivity. cbn [JS.then_dropped].
  apply Nat.eqb_neq in Hsize. rewrite Hsize. reflexivity.
Qed.

Lemma pwEnc_eq (content : bytes) (passphrase : string)
    (adata : option bytes) (g : rng) :
  util.pwEnc content passphrase adata g
  = Fulfilled (msgpack_encode (box content passphrase adata g)).
Proof.
  unfold util.pwEnc. rewrite Hready. cbn [JS.then_dropped].
  rewrite pwHash_eq by exact I. reflexivity.
Qed.

Lemma getBundle_eq (k : Keypair) (passphrase h : string) (g : rng) :
  getBundle k passphrase h g
  = Fulfilled {| type := "hcKeypair"; hint := h;
                 data := msgpack_encode
                           (box (msgpack_encode (key_fields k))
                                passphrase None g) |}.
Proof. unfold getBundle. rewrite pwEnc_eq. reflexivity. Qed.

Lemma pwDec_box (content : bytes) (p q : string) (adata : option bytes)
    (g g' : rng) :
  msgpack_round_trip ->
  util.pwDec (msgpack_encode (box content p adata g)) q adata g'
  = Val (match crypto_aead_xchacha20poly1305_ietf_decrypt
                 (box_cipher content p adata g) adata (box_nonce g)
                 (crypto_pwhash 32 q (box_salt g)) with
         | Val m => Fulfilled m
         | Throw _ => Pending
         end).
Proof.
  intros Hmp. unfold util.pwDec. rewrite Hmp.
  cbn [box mp_field assoc own_field String.eqb Ascii.eqb Bool.eqb
       util.pwHash_item].
  rewrite pwHash_eq by apply randombytes_buf_length.
  cbn [JS.then_dropped fst snd hash].
  rewrite Hready. cbn [JS.then_dropped util.aead_decrypt].
  destruct (crypto_aead_xchacha20poly1305_ietf_decrypt _ _ _ _); reflexivity.
Qed.

End KeypairFacts.

(** C2: a bundle made by [getBundle] from a keypair derived from a seed opens
    under the same passphrase to that very keypair (identity string, public
    and private fields); under another passphrase the decryption throws
    inside a dropped [then] callback, so the promise of [fromBundle] is never
    settled: no plaintext is returned, and no rejection reaches the caller
    either. *)
Theorem C2_fromBundle_getBundle {sodium : Sodium} {msgpack : Msgpack}
    (seed : bytes) (k : Keypair) (p wrongP h : string) (g g' : rng) :
  sodium_ready -> msgpack_round_trip -> aead_round_trip -> aead_wrong_key ->
  pwhash_injective ->
  newFromSeed seed = Fulfilled k ->
  wrongP <> p ->
  exists b,
    getBundle k p h g = Fulfilled b /\
    fromBundle b p g' = Fulfilled k /\
    fromBundle b wrongP g' = Pending.
Proof.
  intros Hready Hmp Haead Hwrong Hkdf Hk Hne.
  rewrite newFromSeed_eq in Hk by assumption. injection Hk as <-.
  eexists. split; [apply getBundle_eq; assumption|]. split.
  - unfold fromBundle. cbn [data]. rewrite pwDec_box by assumption.
    unfold box_cipher. rewrite Haead. cbn [JS.then_dropped]. rewrite Hmp.
    cbn [key_fields keypair_of_seed mp_at nth mp_of_option
         option_of_mp _signPub _encPub _signPriv _encPriv].
    rewrite encodeId_some by assumption. reflexivity.
  - unfold fromBundle. cbn [data]. rewrite pwDec_box by assumption.
    unfold box_cipher.
    destruct (Hwrong (msgpack_encode (key_fields (keypair_of_seed seed)))
                None (box_nonce g) (crypto_pwhash 32 p (box_salt g))
                None (box_nonce g) (crypto_pwhash 32 wrongP (box_salt g)))
      as [e He].
    + intros Heq. apply Hkdf in Heq. contradiction.
    + rewrite He. reflexivity.
Qed.

Lemma C2_fromBundle_getBundle_witness :
  exists b,
    getBundle (sodium := Toy.sodium) (msgpack := Toy.msgpack)
      (Toy.keypair_of Toy.seed1) "correct horse" "laptop" Toy.zeros
      = Fulfilled b /\
    fromBundle (sodium := Toy.sodium) (msgpack := Toy.msgpack)
      b "correct horse" Toy.zeros
      = Fulfilled (Toy.keypair_of Toy.seed1) /\
    fromBundle (sodium := Toy.sodium) (msgpack := Toy.msgpack)
      b "battery staple" Toy.zeros = Pending.
Proof.
  apply (@C2_fromBundle_getBundle Toy.sodium Toy.msgpack
           Toy.seed1 (Toy.keypair_of Toy.seed1)
           "correct horse" "battery staple" "laptop" Toy.zeros Toy.zeros
           ToyFacts.toy_ready ToyFacts.toy_msgpack ToyFacts.toy_aead_round_trip
           ToyFacts.toy_aead_wrong_key ToyFacts.toy_pwhash_injective).
  - reflexivity.
  - discriminate.
Defined.

(** C9 (as the code has it): the bundle that [getBundle] resolves to carries
    the type tag "hcKeypair", the hint it was given, and as [data] one
    msgpack document, the map of a 16-byte salt, a 24-byte nonce and the
    ciphertext of the four serialised key fields under the key hashed from
    the passphrase and that salt; the bytes are stored as they are. *)
Theorem C9_getBundle_shape {sodium : Sodium} {msgpack : Msgpack}
    (k : Keypair) (p h : string) (g : rng) :
  sodium_ready ->
  exists s n c,
    getBundle k p h g
    = Fulfilled {| type := "hcKeypair"; hint := h;
                   data := msgpack_encode (MMap [("salt", MBin s);
                                                 ("nonce", MBin n);
                                                 ("cipher", MBin c)]) |} /\
    List.length s = 16 /\
    List.length n = 24 /\
    c = crypto_aead_xchacha20poly1305_ietf_encrypt
          (msgpack_encode (MArray [mp_of_option (_signPub k);
                                   mp_of_option (_encPub k);
                                   mp_of_option (_signPriv k);
                                   mp_of_option (_encPriv k)]))
          None n (crypto_pwhash 32 p s).
Proof.
  intros Hready.
  exists (box_salt g), (box_nonce g),
         (box_cipher (msgpack_encode (key_fields k)) p None g).
  split; [apply getBundle_eq; assumption|].
  split; [apply randombytes_buf_length|].
  split; [apply randombytes_buf_length|]. reflexivity.
Qed.

Lemma C9_getBundle_shape_witness :
  exists s n c,
    getBundle (sodium := Toy.sodium) (msgpack := Toy.msgpack)
      (Toy.keypair_of Toy.seed1) "correct horse" "laptop" Toy.zeros
    = Fulfilled {| type := "hcKeypair"; hint := "laptop";
                   data := Toy.encode (MMap [("salt", MBin s);
                                             ("nonce", MBin n);
                                             ("cipher", MBin c)]) |} /\
    List.length s = 16 /\
    List.length n = 24 /\
    c = Toy.seal (list_byte_of_string "correct horse" ++ s)
          (Toy.encode
             (MArray [mp_of_option (_signPub (Toy.keypair_of Toy.seed1));
                      mp_of_option (_encPub (Toy.keypair_of Toy.seed1));
                      mp_of_option (_signPriv (Toy.keypair_of Toy.seed1));
                      mp_of_option (_encPriv (Toy.keypair_of Toy.seed1))])).
Proof.
  apply (@C9_getBundle_shape Toy.sodium Toy.msgpack
           (Toy.keypair_of Toy.seed1) "correct horse" "laptop" Toy.zeros
           ToyFacts.toy_ready).
Defined.

(** C9, as stated, fails: the type tag of a bundle is not
    "keypair-bundle". *)
Lemma C9_type_tag_counterexample :
  exists b,
    getBundle (sodium := Toy.sodium) (msgpack := Toy.msgpack)
      (Toy.keypair_of Toy.seed1) "correct horse" "laptop" Toy.zeros
      = Fulfilled b /\
    type b = "hcKeypair" /\
    type b <> "keypair-bundle".
Proof.
  eexists. split; [reflexivity|]. split; [reflexivity|]. discriminate.
Qed.

(** ** Encryption for several recipients *)

Section EncryptFacts.
Context {sodium : Sodium} {msgpack : Msgpack}.
Hypothesis Hready : sodium_ready.
Hypothesis Hb64 : base64_round_trip.
Hypothesis Hlen : public_keys_32.
Hypothesis Hsk : kx_secret_keys_32.

Lemma kx_sizes_derived (a b : bytes) :
  kx_sizes (fst (crypto_kx_seed_keypair a)) (snd (crypto_kx_seed_keypair a))
           (fst (crypto_kx_seed_keypair b)) = true.
Proof.
  unfold kx_sizes. destruct (Hlen a) as [_ Ha]. destruct (Hlen b) as [_ Hb].
  rewrite Ha, (Hsk a), Hb. reflexivity.
Qed.

Lemma slice_left (a b : bytes) :
  List.length a = 32 -> slice (a ++ b) 0 32 = a.
Proof.
  intros H. unfold slice. cbn [skipn Nat.sub].
  rewrite firstn_app, H, Nat.sub_diag, firstn_O, app_nil_r.
  rewrite <- H. apply firstn_all.
Qed.

Lemma slice_right (a b : bytes) :
  List.length a = 32 -> List.length b = 32 -> slice (a ++ b) 32 64 = b.
Proof.
  intros Ha Hb. unfold slice.
  rewrite skipn_app, Ha, Nat.sub_diag, skipn_O.
  rewrite (skipn_all2 a) by lia. cbn [app].
  change (64 - 32) with 32. rewrite <- Hb. apply firstn_all.
Qed.

Lemma decodeId_derived (seed : bytes) :
  util.decodeId (getId (keypair_of_seed seed))
  = Fulfilled {| signPub := fst (crypto_sign_seed_keypair seed);
                 encPub := fst (crypto_kx_seed_keypair seed) |}.
Proof.
  unfold util.decodeId, getId, keypair_of_seed. cbn [_pubkeys].
  rewrite Hready. cbn [JS.then_dropped]. rewrite Hb64.
  destruct (Hlen seed) as [Hs He].
  rewrite slice_left, slice_right by assumption. reflexivity.
Qed.

Lemma encrypt_chain_derived (sender recipient symSecret : bytes)
    (adata : option bytes) (out : list bytes) (g : rng) :
  encrypt_chain (keypair_of_seed sender) symSecret adata
    (getId (keypair_of_seed recipient)) out g
  = Some (out ++ flat (fst (wrapped_secrets sender symSecret adata
                              [recipient] g)),
          snd (wrapped_secrets sender symSecret adata [recipient] g)).
Proof.
  unfold encrypt_chain. rewrite decodeId_derived.
  cbn [JS.then_ encPub]. unfold kx_server.
  cbn [keypair_of_seed _encPub _encPriv]. rewrite kx_sizes_derived.
  reflexivity.
Qed.

Lemma encrypt_loop_derived (sender symSecret : bytes)
    (adata : option bytes) (recipients : list bytes) :
  recipients <> [] ->
  forall (out : list bytes) (g : rng),
    encrypt_loop (keypair_of_seed sender) symSecret adata
      (map (fun r => getId (keypair_of_seed r)) recipients) out g
    = Resolve (out ++ flat (fst (wrapped_secrets sender symSecret adata
                                   recipients g)),
               snd (wrapped_secrets sender symSecret adata recipients g)).
Proof.
  induction recipients as [|r rest IH]; intros Hne out g; [contradiction|].
  cbn [map encrypt_loop]. rewrite encrypt_chain_derived.
  destruct rest as [|r' rest'].
  - reflexivity.
  - cbn [map]. cbn [map] in IH. rewrite IH by discriminate.
    cbn [wrapped_secrets fst snd flat app]. rewrite <- app_assoc.
    reflexivity.
Qed.

End EncryptFacts.

(** Without one of its encryption keys a keypair gets no answer from
    [decrypt]: the key exchange throws inside a dropped callback. *)
Lemma decrypt_lacking_keys {sodium : Sodium} {msgpack : Msgpack}
    (k : Keypair) (sId : string) (cipher : bytes) (adata : option bytes)
    (doc : mp) :
  _encPub k = None \/ _encPriv k = None ->
  msgpack_decode cipher = Val doc ->
  decrypt k sId cipher adata = Val Pending.
Proof.
  intros Hk Hdoc. unfold decrypt. rewrite Hdoc.
  destruct ready as [[]| |]; try reflexivity. cbn [JS.then_dropped].
  destruct (util.decodeId sId) as [id| |]; try reflexivity.
  cbn [JS.then_dropped]. unfold kx_client.
  destruct Hk as [Hk|Hk]; rewrite Hk; [|destruct (_encPub k)]; reflexivity.
Qed.

Section DecryptFacts.
Context {sodium : Sodium} {msgpack : Msgpack}.
Hypothesis Hready : sodium_ready.
Hypothesis Hb64 : base64_round_trip.
Hypothesis Hlen : public_keys_32.
Hypothesis Hsk : kx_secret_keys_32.
Hypothesis Hmp : msgpack_round_trip.
Hypothesis Haead : aead_round_trip.
Hypothesis Hwrong : aead_wrong_key.

(** The secret, the slots and the payload of one call of [encrypt]. *)
Lemma encrypt_derived (sender : bytes) (recipients : list bytes)
    (d : plaintext) (adata : option bytes) (g : rng) :
  recipients <> [] ->
  let symSecret := fst (randombytes_buf 32 g) in
  let w := wrapped_secrets sender symSecret adata recipients
             (snd (randombytes_buf 32 g)) in
  let nonce := fst (randombytes_buf NONCEBYTES (snd w)) in
  encrypt (keypair_of_seed sender)
    (map (fun r => getId (keypair_of_seed r)) recipients) d adata g
  = Fulfilled
      (msgpack_encode
         (MArray (map MBin
            (flat (fst w) ++ [nonce] ++
             [crypto_aead_xchacha20poly1305_ietf_encrypt
                (Buffer_from_data d) adata nonce symSecret])))).
Proof.
  intros Hne. cbv zeta. unfold encrypt, util.randomBytes.
  rewrite Hready. cbn [JS.then_dropped JS.resolve_then_reject JS.new_Promise
                       JS.then_].
  destruct (randombytes_buf 32 g) as [symSecret g1]. cbn [fst snd].
  rewrite (encrypt_loop_derived Hready Hb64 Hlen Hsk) by assumption.
  cbn [app].
  destruct (wrapped_secrets sender symSecret adata recipients g1)
    as [slots g2].
  cbn [fst snd JS.then_dropped].
  destruct (randombytes_buf NONCEBYTES g2) as [nonce g3]. reflexivity.
Qed.

Lemma decrypt_loop_slots (adata : option bytes) (rx pn pc : bytes)
    (slots : list (bytes * bytes)) :
  forall (pre : list mpval) (acc : option bytes) (fuel : nat),
    List.length slots <= fuel ->
    decrypt_loop fuel (List.length pre)
      (pre ++ map MBin (flat slots) ++ [MBin pn; MBin pc]) adata rx acc
    = fold_left (try_slot adata rx) slots acc.
Proof.
  induction slots as [|[n c] rest IH]; intros pre acc fuel Hfuel.
  - cbn [flat map app fold_left].
    destruct fuel as [|fuel]; [reflexivity|]. cbn [decrypt_loop].
    replace (Z.of_nat (List.length pre) <?
             Z.of_nat (List.length (pre ++ [MBin pn; MBin pc])) - 2)%Z
      with false; [reflexivity|].
    symmetry. apply Z.ltb_ge. rewrite length_app. cbn [List.length]. lia.
  - destruct fuel as [|fuel]; [cbn in Hfuel; lia|].
    cbn [flat map app fold_left decrypt_loop].
    replace (Z.of_nat (List.length pre) <? _)%Z with true.
    2:{ symmetry. apply Z.ltb_lt. rewrite !length_app. cbn [List.length].
        rewrite length_app. cbn [List.length]. lia. }
    unfold mp_index. rewrite nth_middle.
    replace (nth (List.length pre + 1) _ MNil) with (MBin c).
    2:{ change (pre ++ MBin n :: MBin c ::
                  map MBin (flat rest) ++ [MBin pn; MBin pc])
          with (pre ++ [MBin n] ++ MBin c ::
                  map MBin (flat rest) ++ [MBin pn; MBin pc]).
        rewrite app_assoc.
        replace (List.length pre + 1) with (List.length (pre ++ [MBin n]))
          by (rewrite length_app; reflexivity).
        rewrite nth_middle. reflexivity. }
    cbn [util.aead_decrypt].
    change (pre ++ MBin n :: MBin c ::
              map MBin (flat rest) ++ [MBin pn; MBin pc])
      with (pre ++ [MBin n; MBin c] ++
              map MBin (flat rest) ++ [MBin pn; MBin pc]).
    rewrite app_assoc.
    replace (List.length pre + 2)
      with (List.length (pre ++ [MBin n; MBin c]))
      by (rewrite length_app; reflexivity).
    rewrite IH by (cbn in Hfuel; lia). reflexivity.
Qed.

(** The rounds that [decrypt] allows are enough: with more of them the loop
    gives the same. *)
Lemma decrypt_loop_more_fuel (cipher : list mpval) (adata : option bytes)
    (rx : bytes) (fuel : nat) :
  forall (i : nat) (acc : option bytes),
    List.length cipher <= i + 2 * fuel + 2 ->
    decrypt_loop (S fuel) i cipher adata rx acc
    = decrypt_loop fuel i cipher adata rx acc.
Proof.
  induction fuel as [|fuel IH]; intros i acc Hbound.
  - cbn [decrypt_loop].
    replace (Z.of_nat i <? Z.of_nat (List.length cipher) - 2)%Z with false;
      [reflexivity|].
    symmetry. apply Z.ltb_ge. lia.
  - change (decrypt_loop (S (S fuel)) i cipher adata rx acc)
      with (if (Z.of_nat i <? Z.of_nat (List.length cipher) - 2)%Z
            then decrypt_loop (S fuel) (i + 2) cipher adata rx
                   match util.aead_decrypt (mp_index cipher (i + 1)) adata
                           (mp_index cipher i) rx with
                   | Val s => Some s
                   | Throw _ => acc
                   end
            else acc).
    rewrite IH by lia. reflexivity.
Qed.

Lemma decrypt_loop_fuel_enough (cipher : list mpval) (adata : option bytes)
    (rx : bytes) (more : nat) :
  decrypt_loop (List.length cipher + more) 0 cipher adata rx None
  = decrypt_loop (List.length cipher) 0 cipher adata rx None.
Proof.
  induction more as [|more IH]; [rewrite Nat.add_0_r; reflexivity|].
  rewrite Nat.add_succ_r, decrypt_loop_more_fuel by lia. exact IH.
Qed.

Lemma flat_length (slots : list (bytes * bytes)) :
  List.length (flat slots) = 2 * List.length slots.
Proof. induction slots as [|[n c] rest IH]; cbn [flat List.length]; lia. Qed.

Lemma fold_try_slot (sender symSecret rx : bytes) (adata : option bytes)
    (recipients : list bytes) :
  forall (g : rng) (acc : option bytes),
    fold_left (try_slot adata rx)
      (fst (wrapped_secrets sender symSecret adata recipients g)) acc
    = if existsb (opens rx sender) recipients then Some symSecret else acc.
Proof.
  induction recipients as [|r rest IH]; intros g acc; [reflexivity|].
  cbn [wrapped_secrets fst fold_left existsb]. rewrite IH.
  unfold try_slot at 1, opens at 2. cbn [fst snd].
  destruct (list_eq_dec Byte.byte_eq_dec (tx_key sender r) rx) as [Heq|Hne].
  - rewrite Heq, Haead. cbn [orb].
    destruct (existsb (opens rx sender) rest); reflexivity.
  - pose proof Hwrong as Hw.
    destruct (Hw symSecret adata (fst (randombytes_buf NONCEBYTES g))
                (tx_key sender r) adata
                (fst (randombytes_buf NONCEBYTES g)) rx) as [e He].
    + congruence.
    + rewrite He. reflexivity.
Qed.

(** What [decrypt] does with the output of [encrypt], in terms of the
    slots that open under the key of the one who decrypts. *)
Lemma decrypt_encrypt (sender me : bytes) (recipients : list bytes)
    (d : plaintext) (adata : option bytes) (g : rng) (c : bytes) :
  encrypt (keypair_of_seed sender)
    (map (fun r => getId (keypair_of_seed r)) recipients) d adata g
    = Fulfilled c ->
  recipients <> [] ->
  decrypt (keypair_of_seed me) (getId (keypair_of_seed sender)) c adata
  = Val (if existsb (opens (rx_key me sender) sender) recipients
         then match to_string (Buffer_from_data d) with
              | Val text => Fulfilled text
              | Throw _ => Pending
              end
         else Rejected (Error "could not decrypt - not a recipient?")).
Proof.
  intros Henc Hne. rewrite encrypt_derived in Henc by assumption.
  cbv zeta in Henc.
  apply (f_equal (fun p => match p with Fulfilled a => a | _ => c end))
    in Henc.
  cbv beta iota in Henc. subst c.
  unfold decrypt. rewrite Hmp. cbn [mp_items].
  rewrite Hready. cbn [JS.then_dropped].
  rewrite (decodeId_derived Hready Hb64 Hlen). cbn [JS.then_dropped encPub].
  unfold kx_client, keypair_of_seed at 1 2. cbn [_encPub _encPriv].
  rewrite (kx_sizes_derived Hlen Hsk). fold (rx_key me sender).
  set (sym := fst (randombytes_buf 32 g)).
  set (w := wrapped_secrets sender sym adata recipients
              (snd (randombytes_buf 32 g))).
  set (pn := fst (randombytes_buf NONCEBYTES (snd w))).
  set (pc := crypto_aead_xchacha20poly1305_ietf_encrypt
               (Buffer_from_data d) adata pn sym).
  rewrite map_app. change (map MBin ([pn] ++ [pc])) with [MBin pn; MBin pc].
  set (cipher := map MBin (flat (fst w)) ++ [MBin pn; MBin pc]).
  assert (Hcl : List.length cipher = 2 * List.length (fst w) + 2).
  { unfold cipher. rewrite length_app, length_map, flat_length.
    cbn [List.length]. lia. }
  change (decrypt_loop (List.length cipher) 0 cipher adata
            (rx_key me sender) None)
    with (decrypt_loop (List.length cipher) (List.length (@nil mpval))
            ([] ++ cipher) adata (rx_key me sender) None).
  unfold cipher at 2. rewrite decrypt_loop_slots by lia.
  unfold w at 1. rewrite fold_try_slot.
  destruct (existsb (opens (rx_key me sender) sender) recipients);
    [|reflexivity].
  unfold mp_index.
  replace (nth (List.length cipher - 1) cipher MNil) with (MBin pc).
  2:{ unfold cipher.
      change (map MBin (flat (fst w)) ++ [MBin pn; MBin pc])
        with (map MBin (flat (fst w)) ++ [MBin pn] ++ [MBin pc]).
      rewrite app_assoc.
      replace (List.length ((map MBin (flat (fst w)) ++ [MBin pn])
                              ++ [MBin pc]) - 1)
        with (List.length (map MBin (flat (fst w)) ++ [MBin pn]))
        by (rewrite !length_app; cbn [List.length]; lia).
      rewrite nth_middle. reflexivity. }
  replace (nth (List.length cipher - 2) cipher MNil) with (MBin pn).
  2:{ unfold cipher.
      replace (List.length (map MBin (flat (fst w)) ++ [MBin pn; MBin pc])
               - 2)
        with (List.length (map MBin (flat (fst w))))
        by (rewrite !length_app; cbn [List.length]; lia).
      rewrite nth_middle. reflexivity. }
  cbn [util.aead_decrypt]. unfold pc. rewrite Haead.
  destruct (to_string (Buffer_from_data d)); reflexivity.
Qed.

End DecryptFacts.

Lemma derived_keypair_of_seed {sodium : Sodium} {msgpack : Msgpack}
    (k : Keypair) :
  sodium_ready -> derived k -> exists seed, k = keypair_of_seed seed.
Proof.
  intros Hready [seed Hk]. exists seed.
  rewrite newFromSeed_eq in Hk by assumption. congruence.
Qed.

Lemma derived_keypairs_of_seeds {sodium : Sodium} {msgpack : Msgpack}
    (ks : list Keypair) :
  sodium_ready -> Forall derived ks ->
  exists seeds, ks = map keypair_of_seed seeds.
Proof.
  intros Hready H. induction H as [|k ks Hk _ [seeds ->]].
  - exists []. reflexivity.
  - destruct (derived_keypair_of_seed _ Hready Hk) as [seed ->].
    exists (seed :: seeds). reflexivity.
Qed.

Lemma encrypt_no_recipient {sodium : Sodium} {msgpack : Msgpack}
    (k : Keypair) (d : plaintext) (adata : option bytes) (g : rng) :
  sodium_ready -> encrypt k [] d adata g = Pending.
Proof.
  intros Hready. unfold encrypt, util.randomBytes. rewrite Hready.
  cbn [JS.then_dropped JS.resolve_then_reject JS.new_Promise JS.then_].
  destruct (randombytes_buf 32 g) as [symSecret g1]. reflexivity.
Qed.

(** C3: for a sender and recipients made by [newFromSeed], any associated
    data and randomness: [encrypt] resolves as soon as there is a recipient,
    and of what it resolves to:
    - each recipient decrypts a plaintext that is UTF-8 text (without a
      leading byte order mark) back to that text, with its own encryption
      keys and the identity of the sender;
    - a keypair made by [newFromSeed] whose encryption key is not a
      recipient's is answered with the rejection
      "could not decrypt - not a recipient?";
    - where the claim breaks: a plaintext whose bytes are not UTF-8 comes
      back to no recipient, and a keypair that lacks one of its encryption
      keys gets no rejection: in both cases the exception is thrown inside a
      dropped callback and the promise of [decrypt] is never settled. *)
Theorem C3_encrypt_decrypt_recipients {sodium : Sodium} {msgpack : Msgpack}
    (sender : Keypair) (recipients : list Keypair) (d : plaintext)
    (adata : option bytes) (g : rng) :
  sodium_ready -> base64_round_trip -> public_keys_32 -> kx_secret_keys_32 ->
  msgpack_round_trip -> aead_round_trip -> aead_wrong_key ->
  kx_agreement -> kx_separation -> to_string_strict ->
  derived sender -> Forall derived recipients ->
  (recipients <> [] ->
   exists c, encrypt sender (map getId recipients) d adata g = Fulfilled c) /\
  (forall c,
     encrypt sender (map getId recipients) d adata g = Fulfilled c ->
     (forall r, In r recipients ->
        (utf8_valid (Buffer_from_data d) = true ->
         utf8_bom (Buffer_from_data d) = false ->
         decrypt r (getId sender) c adata = Val (Fulfilled (as_text d))) /\
        (utf8_valid (Buffer_from_data d) = false ->
         decrypt r (getId sender) c adata = Val Pending)) /\
     (forall x, derived x ->
        ~ In (_encPub x) (map _encPub recipients) ->
        decrypt x (getId sender) c adata
        = Val (Rejected (Error "could not decrypt - not a recipient?"))) /\
     (forall x, _encPub x = None \/ _encPriv x = None ->
        decrypt x (getId sender) c adata = Val Pending)).
Proof.
  intros Hready Hb64 Hlen Hsk Hmp Haead Hwrong Hagree Hsep [Hbad Hgood] Hs Hrs.
  destruct (derived_keypair_of_seed _ Hready Hs) as [ss ->].
  destruct (derived_keypairs_of_seeds _ Hready Hrs) as [rs ->].
  rewrite map_map. split.
  - intros Hne.
    assert (Hne' : rs <> []) by (intros ->; apply Hne; reflexivity).
    eexists. apply encrypt_derived; assumption.
  - intros c Henc.
    assert (Hne' : rs <> []).
    { intros ->. cbn [map] in Henc.
      rewrite encrypt_no_recipient in Henc by assumption. discriminate. }
    split; [|split].
    + intros r Hin. apply in_map_iff in Hin. destruct Hin as [rseed [<- Hin]].
      rewrite (decrypt_encrypt Hready Hb64 Hlen Hsk Hmp Haead Hwrong
                 _ _ _ _ _ _ _ Henc Hne').
      replace (existsb (opens (rx_key rseed ss) ss) rs) with true.
      * split.
        -- intros Hvalid Hbom. rewrite (Hgood _ Hvalid Hbom).
           destruct d as [text|b]; cbn [Buffer_from_data as_text];
             [|reflexivity].
           unfold Buffer_from. rewrite string_of_list_byte_of_string.
           reflexivity.
        -- intros Hinvalid. destruct (Hbad _ Hinvalid) as [e He].
           rewrite He. reflexivity.
      * symmetry. apply existsb_exists. exists rseed. split; [assumption|].
        unfold opens.
        destruct (list_eq_dec Byte.byte_eq_dec
                    (tx_key ss rseed) (rx_key rseed ss)) as [_|Hn];
          [reflexivity|].
        exfalso. apply Hn. unfold tx_key, rx_key.
        specialize (Hagree ss rseed).
        destruct (crypto_kx_seed_keypair ss), (crypto_kx_seed_keypair rseed).
        cbn [fst snd]. symmetry. exact Hagree.
    + intros x Hx Hnot.
      destruct (derived_keypair_of_seed _ Hready Hx) as [xs ->].
      rewrite (decrypt_encrypt Hready Hb64 Hlen Hsk Hmp Haead Hwrong
                 _ _ _ _ _ _ _ Henc Hne').
      destruct (existsb (opens (rx_key xs ss) ss) rs) eqn:E; [|reflexivity].
      exfalso. apply existsb_exists in E. destruct E as [rseed [Hin Hop]].
      unfold opens in Hop.
      destruct (list_eq_dec Byte.byte_eq_dec (tx_key ss rseed) (rx_key xs ss))
        as [Heq|_]; [|discriminate].
      destruct (list_eq_dec Byte.byte_eq_dec
                  (fst (crypto_kx_seed_keypair xs))
                  (fst (crypto_kx_seed_keypair rseed))) as [Hpk|Hpk].
      * apply Hnot. rewrite map_map. apply in_map_iff. exists rseed.
        split; [|assumption]. cbn [keypair_of_seed _encPub]. rewrite Hpk.
        reflexivity.
      * specialize (Hsep ss rseed xs). unfold tx_key, rx_key in Heq.
        destruct (crypto_kx_seed_keypair ss), (crypto_kx_seed_keypair rseed),
          (crypto_kx_seed_keypair xs).
        cbn [fst snd] in *. apply (Hsep Hpk). symmetry. exact Heq.
    + intros x Hx. rewrite encrypt_derived in Henc by assumption.
      cbv zeta in Henc.
      apply (f_equal (fun p => match p with Fulfilled a => a | _ => c end))
        in Henc.
      cbv beta iota in Henc. subst c.
      eapply decrypt_lacking_keys; [exact Hx | apply Hmp].
Qed.

Lemma C3_encrypt_decrypt_recipients_witness :
  (exists c,
     encrypt (sodium := Toy.sodium) (msgpack := Toy.msgpack)
       (Toy.keypair_of Toy.seed1)
       (map getId [Toy.keypair_of Toy.seed2; Toy.keypair_of Toy.seed3])
       (Text "attack at dawn") None Toy.zeros = Fulfilled c /\
     decrypt (sodium := Toy.sodium) (msgpack := Toy.msgpack)
       (Toy.keypair_of Toy.seed2) (getId (Toy.keypair_of Toy.seed1)) c None
     = Val (Fulfilled "attack at dawn") /\
     decrypt (sodium := Toy.sodium) (msgpack := Toy.msgpack)
       (Toy.keypair_of Toy.seed3) (getId (Toy.keypair_of Toy.seed1)) c None
     = Val (Fulfilled "attack at dawn") /\
     decrypt (sodium := Toy.sodium) (msgpack := Toy.msgpack)
       (Toy.keypair_of (repeat x04 32)) (getId (Toy.keypair_of Toy.seed1))
       c None
     = Val (Rejected (Error "could not decrypt - not a recipient?")) /\
     decrypt (sodium := Toy.sodium) (msgpack := Toy.msgpack)
       (public_only (getId (Toy.keypair_of (repeat x04 32))))
       (getId (Toy.keypair_of Toy.seed1)) c None
     = Val Pending) /\
  (exists c,
     encrypt (sodium := Toy.sodium) (msgpack := Toy.msgpack)
       (Toy.keypair_of Toy.seed1) (map getId [Toy.keypair_of Toy.seed2])
       (Binary [xff]) None Toy.zeros = Fulfilled c /\
     decrypt (sodium := Toy.sodium) (msgpack := Toy.msgpack)
       (Toy.keypair_of Toy.seed2) (getId (Toy.keypair_of Toy.seed1)) c None
     = Val Pending).
Proof.
  split.
  - destruct (@C3_encrypt_decrypt_recipients Toy.sodium Toy.msgpack
                (Toy.keypair_of Toy.seed1)
                [Toy.keypair_of Toy.seed2; Toy.keypair_of Toy.seed3]
                (Text "attack at dawn") None Toy.zeros
                ToyFacts.toy_ready ToyFacts.toy_base64
                ToyFacts.toy_public_keys_32 ToyFacts.toy_kx_secret_keys_32
                ToyFacts.toy_msgpack
                ToyFacts.toy_aead_round_trip ToyFacts.toy_aead_wrong_key
                ToyFacts.toy_kx_agreement ToyFacts.toy_kx_separation
                ToyFacts.toy_to_string_strict)
      as [Hex Hdec].
    + exists Toy.seed1. reflexivity.
    + repeat constructor; [exists Toy.seed2 | exists Toy.seed3]; reflexivity.
    + destruct (Hex ltac:(discriminate)) as [c Hc].
      destruct (Hdec c Hc) as [Hin [Hout Hkeys]].
      exists c. split; [exact Hc|].
      split; [apply Hin; [left|..]; reflexivity|].
      split; [apply Hin; [right; left|..]; reflexivity|].
      split.
      * apply Hout.
        -- exists (repeat x04 32). reflexivity.
        -- vm_compute. intros [H|[H|[]]]; discriminate.
      * apply Hkeys. left. reflexivity.
  - destruct (@C3_encrypt_decrypt_recipients Toy.sodium Toy.msgpack
                (Toy.keypair_of Toy.seed1) [Toy.keypair_of Toy.seed2]
                (Binary [xff]) None Toy.zeros
                ToyFacts.toy_ready ToyFacts.toy_base64
                ToyFacts.toy_public_keys_32 ToyFacts.toy_kx_secret_keys_32
                ToyFacts.toy_msgpack
                ToyFacts.toy_aead_round_trip ToyFacts.toy_aead_wrong_key
                ToyFacts.toy_kx_agreement ToyFacts.toy_kx_separation
                ToyFacts.toy_to_string_strict)
      as [Hex Hdec].
    + exists Toy.seed1. reflexivity.
    + repeat constructor. exists Toy.seed2. reflexivity.
    + destruct (Hex ltac:(discriminate)) as [c Hc].
      destruct (Hdec c Hc) as [Hin _].
      exists c. split; [exact Hc|].
      apply Hin; [left|]; reflexivity.
Defined.

(** ** The session *)

(** C10: with no keypair bound, [getCurrentAgentId] resolves to [undefined]
    and rejects nothing; with a keypair bound it resolves to the hcs0
    encoding of the signing public key, whatever the identity string and
    the encryption key of the keypair are. *)
Theorem C10_getCurrentAgentId {hcid : Hcid} (s : Session) :
  getCurrentAgentId (set_keypair None s) = (set_keypair None s, Fulfilled None)
  /\
  (forall kp,
     getCurrentAgentId (set_keypair (Some kp) s)
     = (set_keypair (Some kp) s,
        match hcs0_encode (_signPub kp) with
        | Val agentId => Fulfilled (Some agentId)
        | Throw e => Rejected e
        end))
  /\
  (forall signPub pubkeys encPub signPriv encPriv pubkeys' encPub' signPriv'
          encPriv',
     snd (getCurrentAgentId
            (set_keypair
               (Some {| _pubkeys := pubkeys; _signPub := signPub;
                        _encPub := encPub; _signPriv := signPriv;
                        _encPriv := encPriv |}) s))
     = snd (getCurrentAgentId
              (set_keypair
                 (Some {| _pubkeys := pubkeys'; _signPub := signPub;
                          _encPub := encPub'; _signPriv := signPriv';
                          _encPriv := encPriv' |}) s))).
Proof.
  split; [reflexivity|]. split.
  - intros kp. unfold getCurrentAgentId. cbn [set_keypair keypair].
    destruct (hcs0_encode (_signPub kp)); reflexivity.
  - intros. reflexivity.
Qed.

Lemma authorization_required_spec {json : Json} (response : string) :
  authorization_required response = true <-> encodes_401 response.
Proof.
  unfold authorization_required, encodes_401. split.
  - destruct (JSON_parse response) as [responseJson|e]; [|discriminate].
    destruct responseJson as [| |b|n|str|items|fields]; cbn; try discriminate.
    destruct (own_property "Err" fields) as [| |b|n|str|items|errFields] eqn:E;
      cbn; try discriminate.
    + destruct b; discriminate.
    + destruct (negb (n =? 0)%Z); discriminate.
    + destruct (negb (String.eqb str EmptyString)); discriminate.
    + destruct (own_property "code" errFields) as [| |b|n|str|items|fs] eqn:C;
        cbn; try discriminate.
      intros H. apply Z.eqb_eq in H. subst n.
      exists fields, errFields. auto.
  - intros [fields [errFields [Hp [He Hc]]]]. rewrite Hp. cbn.
    rewrite He. cbn. rewrite Hc. reflexivity.
Qed.

(** C6: [_postCall] returns the response it was given; it starts the login
    prompt once when the response encodes [{Err: {code: 401}}] and leaves the
    session as it was when the response does not. *)
Theorem C6_postCall {json : Json} (response : string) (s : Session) :
  snd (_postCall response s) = response /\
  (encodes_401 response ->
     fst (_postCall response s) = triggerLoginPrompt s /\
     loginPrompts (fst (_postCall response s)) = S (loginPrompts s)) /\
  (~ encodes_401 response -> fst (_postCall response s) = s).
Proof.
  unfold _postCall. split; [reflexivity|]. split.
  - intros H. apply authorization_required_spec in H. rewrite H.
    split; reflexivity.
  - intros H. destruct (authorization_required response) eqn:E;
      [|reflexivity].
    exfalso. apply H. apply authorization_required_spec. exact E.
Qed.

Lemma C6_postCall_witness :
  (snd (_postCall (json := Toy.json) "{Err:{code:401}}" Toy.fresh_session)
     = "{Err:{code:401}}" /\
   loginPrompts
     (fst (_postCall (json := Toy.json) "{Err:{code:401}}" Toy.fresh_session))
     = 1) /\
  (snd (_postCall (json := Toy.json) "{Ok:true}" Toy.fresh_session)
     = "{Ok:true}" /\
   fst (_postCall (json := Toy.json) "{Ok:true}" Toy.fresh_session)
     = Toy.fresh_session).
Proof.
  split.
  - destruct (@C6_postCall Toy.json "{Err:{code:401}}" Toy.fresh_session)
      as [Hr [Hyes _]].
    split; [exact Hr|]. apply Hyes.
    exists [("Err", VObj [("code", VNum 401)])], [("code", VNum 401)].
    repeat split; reflexivity.
  - destruct (@C6_postCall Toy.json "{Ok:true}" Toy.fresh_session)
      as [Hr [_ Hno]].
    split; [exact Hr|]. apply Hno.
    intros [fields [errFields [Hp [He _]]]].
    cbn in Hp. injection Hp as <-. cbn in He. discriminate.
Defined.

Lemma sign_with_key {sodium : Sodium} (kp : Keypair) (sk : bytes)
    (msg : string) :
  sodium_ready -> _signPriv kp = Some sk ->
  sign kp msg = Val (Fulfilled (crypto_sign_detached msg sk)).
Proof.
  intros Hready Hsk. unfold sign. rewrite Hsk, Hready. reflexivity.
Qed.

Lemma sign_without_key {sodium : Sodium} (kp : Keypair) (msg : string) :
  _signPriv kp = None ->
  sign kp msg = Throw (Error "no signPriv - cannot sign data").
Proof. intros Hsk. unfold sign. rewrite Hsk. reflexivity. Qed.

Lemma toBase64_eq {sodium : Sodium} (b : bytes) :
  sodium_ready -> util.toBase64 b = Fulfilled (to_base64 b ORIGINAL).
Proof. intros Hready. unfold util.toBase64. rewrite Hready. reflexivity. Qed.



Section SessionFacts.
Context {sodium : Sodium} {hcid : Hcid}.
Variable host : string -> value -> promise value.

Lemma sendClientSignature_bound (s : Session) (ws : WebsocketClient)
    (kp : Keypair) (agentId : string) (answer : value) :
  websocket s = Some ws ->
  hcs0_encode (_signPub kp) = Val agentId ->
  host "holo/identify" (VObj [("agentId", VStr agentId)])
    = Fulfilled answer ->
  sendClientSignature host (Some kp) s
  = (bound_session s ws kp agentId, Fulfilled tt).
Proof.
  intros Hws Hid Hhost. destruct s as [k w h n]. cbn in Hws. subst w.
  unfold sendClientSignature, bind, getCurrentAgentId, websocket_call,
    websocket_subscribe, websocket_on, bound_session, identify_call.
  cbn [set_keypair set_websocket websocket keypair _happId loginPrompts].
  rewrite Hid. cbn [JS.of_result JS.await value_of_option].
  rewrite Hhost. reflexivity.
Qed.

Lemma set_websocket_twice (a b : option WebsocketClient) (s : Session) :
  set_websocket a (set_websocket b s) = set_websocket a s.
Proof. reflexivity. Qed.

Lemma add_calls_nil (ws : WebsocketClient) : add_calls ws [] = ws.
Proof. destruct ws. unfold add_calls. cbn. rewrite app_nil_r. reflexivity. Qed.

Lemma add_calls_app (ws : WebsocketClient) (a b : list (string * value)) :
  add_calls (add_calls ws a) b = add_calls ws (a ++ b).
Proof. unfold add_calls. cbn. rewrite app_assoc. reflexivity. Qed.

Lemma set_websocket_same (s : Session) (ws : WebsocketClient) :
  websocket s = Some ws -> set_websocket (Some ws) s = s.
Proof. intros H. destruct s. cbn in *. subst. reflexivity. Qed.

Hypothesis Hready : sodium_ready.

Lemma run_listener_signs (s : Session) (ws : WebsocketClient)
    (kp : Keypair) (sk : bytes) (ev : SignEvent) :
  keypair s = Some kp -> _signPriv kp = Some sk -> websocket s = Some ws ->
  run_listener host SignOnRequest ev s
  = (set_websocket (Some (add_calls ws [clientSignature_call sk ev])) s,
     Fulfilled tt).
Proof.
  intros Hkp Hsk Hws. unfold run_listener. rewrite Hkp.
  unfold bind, lift. rewrite (sign_with_key kp sk _ Hready Hsk).
  cbn [JS.of_result JS.await]. rewrite (toBase64_eq _ Hready).
  unfold websocket_call. rewrite Hws. reflexivity.
Qed.

Lemma deliver_fold (event : string) (ev : SignEvent) (kp : Keypair)
    (sk : bytes) (ls : list (string * listener)) :
  _signPriv kp = Some sk ->
  forall (s : Session) (ws : WebsocketClient),
    keypair s = Some kp -> websocket s = Some ws ->
    fold_left
      (fun s' '(name, l) =>
         if String.eqb name event then fst (run_listener host l ev s')
         else s')
      ls s
    = set_websocket
        (Some (add_calls ws
                 (repeat (clientSignature_call sk ev)
                    (List.length (listeners_on event ls))))) s.
Proof.
  intros Hsk. induction ls as [|[name l] ls IH]; intros s ws Hkp Hws.
  - cbn. rewrite add_calls_nil. symmetry. apply set_websocket_same.
    exact Hws.
  - cbn [fold_left listeners_on filter].
    destruct (String.eqb name event).
    + destruct l.
      rewrite (run_listener_signs s ws kp sk ev Hkp Hsk Hws). cbn [fst].
      rewrite (IH _ (add_calls ws [clientSignature_call sk ev]));
        [|exact Hkp|reflexivity].
      rewrite set_websocket_twice, add_calls_app. reflexivity.
    + apply (IH s ws Hkp Hws).
Qed.

(** An event delivered on a name is answered once by every function
    registered for that name, each time with the signature of the keypair
    that is bound at that moment. *)
Lemma deliver_signs (event : string) (ev : SignEvent) (s : Session)
    (ws : WebsocketClient) (kp : Keypair) (sk : bytes) :
  keypair s = Some kp -> _signPriv kp = Some sk -> websocket s = Some ws ->
  deliver host event ev s
  = set_websocket
      (Some (add_calls ws
               (repeat (clientSignature_call sk ev)
                  (List.length (listeners_on event (listeners ws)))))) s.
Proof.
  intros Hkp Hsk Hws. unfold deliver. rewrite Hws.
  apply (deliver_fold event ev kp sk (listeners ws) Hsk s ws Hkp Hws).
Qed.

End SessionFacts.

Lemma verify_derived {sodium : Sodium} (seed : bytes) (msg : string) :
  sodium_ready -> base64_round_trip -> public_keys_32 -> signatures_verify ->
  verify (keypair_of_seed seed)
    (crypto_sign_detached msg (snd (crypto_sign_seed_keypair seed))) msg
  = Fulfilled true.
Proof.
  intros Hready Hb64 Hlen Hsig. unfold verify, util.verify.
  change (_pubkeys (keypair_of_seed seed)) with (getId (keypair_of_seed seed)).
  rewrite (decodeId_derived Hready Hb64 Hlen).
  cbn [JS.then_dropped signPub]. rewrite Hready.
  cbn [JS.then_dropped JS.resolve_then_reject JS.new_Promise].
  rewrite Hsig. reflexivity.
Qed.

Lemma listeners_on_snoc (event : string) (ls : list (string * listener)) :
  List.length (listeners_on event (ls ++ [(event, SignOnRequest)]))
  = S (List.length (listeners_on event ls)).
Proof.
  unfold listeners_on. rewrite filter_app, length_app. cbn [filter].
  rewrite String.eqb_refl. cbn [List.length]. lia.
Qed.

(** C1 (as the code has it): a keypair derived from a seed is bound on an
    open channel whose host answers the identify call.  An event [{entry, id}]
    delivered on the subscribed name [agent/<agentId>/sign], [agentId] being
    the hcs0 encoding of the signing public key, is answered by one
    [clientSignature] call for every function registered on that name: one
    for this binding and one for each function registered on the name
    before it.  Every such call carries the [id] of the event as [requestId]
    and the base64 of a signature that verifies against [entry] under the
    identity of the bound keypair. *)
Theorem C1_sign_event_answered {sodium : Sodium} {hcid : Hcid}
    (host : string -> value -> promise value) (s : Session)
    (ws : WebsocketClient) (seed : bytes) (kp : Keypair) (agentId : string)
    (answer : value) (ev : SignEvent) :
  sodium_ready -> base64_round_trip -> public_keys_32 -> signatures_verify ->
  newFromSeed seed = Fulfilled kp ->
  websocket s = Some ws ->
  hcs0_encode (_signPub kp) = Val agentId ->
  host "holo/identify" (VObj [("agentId", VStr agentId)]) = Fulfilled answer ->
  exists bound signature,
    sendClientSignature host (Some kp) s = (bound, Fulfilled tt) /\
    keypair bound = Some kp /\
    (exists ws', websocket bound = Some ws' /\
                 In (sign_event_name (Some agentId)) (subscriptions ws')) /\
    calls_of (deliver host (sign_event_name (Some agentId)) ev bound)
    = calls_of bound ++
      repeat ("holo/clientSignature",
              VObj [("signature", VStr (to_base64 signature ORIGINAL));
                    ("requestId", id ev)])
        (S (List.length
              (listeners_on (sign_event_name (Some agentId)) (listeners ws))))
    /\
    from_base64 (to_base64 signature ORIGINAL) ORIGINAL = Val signature /\
    verify kp signature (entry ev) = Fulfilled true.
Proof.
  intros Hready Hb64 Hlen Hsig Hkp Hws Hid Hhost.
  rewrite (newFromSeed_eq Hready) in Hkp.
  assert (Hk : kp = keypair_of_seed seed) by congruence. subst kp.
  exists (bound_session s ws (keypair_of_seed seed) agentId),
         (crypto_sign_detached (entry ev)
            (snd (crypto_sign_seed_keypair seed))).
  split; [apply (sendClientSignature_bound host s ws _ agentId answer);
          assumption|].
  split; [reflexivity|]. split.
  { eexists. split; [reflexivity|]. cbn [subscriptions].
    apply in_or_app. right. left. reflexivity. }
  split.
  - rewrite (deliver_signs host Hready (sign_event_name (Some agentId)) ev
               (bound_session s ws (keypair_of_seed seed) agentId)
               {| calls := calls ws ++ [identify_call agentId];
                  subscriptions :=
                    subscriptions ws ++ [sign_event_name (Some agentId)];
                  listeners :=
                    listeners ws ++ [(sign_event_name (Some agentId),
                                      SignOnRequest)] |}
               (keypair_of_seed seed)
               (snd (crypto_sign_seed_keypair seed))
               eq_refl eq_refl eq_refl).
    unfold calls_of. cbn [set_websocket websocket add_calls calls listeners
                          bound_session].
    rewrite listeners_on_snoc. reflexivity.
  - split; [apply Hb64|].
    apply verify_derived; assumption.
Qed.

Lemma C1_sign_event_answered_witness :
  exists bound signature,
    sendClientSignature (hcid := Toy.hcid) Toy.host
      (Some (Toy.keypair_of Toy.seed1)) Toy.fresh_session
      = (bound, Fulfilled tt) /\
    keypair bound = Some (Toy.keypair_of Toy.seed1) /\
    (exists ws', websocket bound = Some ws' /\
                 In (sign_event_name
                       (Some ("Hc" ++ string_of_list_byte
                                        (Toy.fit32 Toy.seed1))%string))
                    (subscriptions ws')) /\
    calls_of (deliver (sodium := Toy.sodium) Toy.host
                (sign_event_name
                   (Some ("Hc" ++ string_of_list_byte (Toy.fit32 Toy.seed1))
                      %string))
                {| entry := "abc"; id := VStr "7" |} bound)
    = calls_of bound ++
      repeat ("holo/clientSignature",
              VObj [("signature", VStr (string_of_list_byte signature));
                    ("requestId", VStr "7")]) 1
    /\
    Val (list_byte_of_string (string_of_list_byte signature)) = Val signature
    /\
    verify (sodium := Toy.sodium) (Toy.keypair_of Toy.seed1) signature "abc"
    = Fulfilled true.
Proof.
  apply (@C1_sign_event_answered Toy.sodium Toy.hcid Toy.host
           Toy.fresh_session Toy.open_channel Toy.seed1
           (Toy.keypair_of Toy.seed1)
           ("Hc" ++ string_of_list_byte (Toy.fit32 Toy.seed1))%string
           (VObj [("Ok", VBool true)])
           {| entry := "abc"; id := VStr "7" |}
           ToyFacts.toy_ready ToyFacts.toy_base64 ToyFacts.toy_public_keys_32
           ToyFacts.toy_signatures_verify);
    reflexivity.
Defined.

(** C1, as stated, fails: the same keypair bound a second time on the open
    channel has two functions registered on its event name, and one event
    [{entry: "abc", id: "7"}] is answered by two [clientSignature] calls. *)
Lemma C1_bound_twice_counterexample :
  let kp := Toy.keypair_of Toy.seed1 in
  let once :=
    sendClientSignature (hcid := Toy.hcid) Toy.host (Some kp)
      Toy.fresh_session in
  let twice :=
    sendClientSignature (hcid := Toy.hcid) Toy.host (Some kp) (fst once) in
  let event :=
    sign_event_name
      (Some ("Hc" ++ string_of_list_byte (Toy.fit32 Toy.seed1))%string) in
  snd once = Fulfilled tt /\
  snd twice = Fulfilled tt /\
  keypair (fst twice) = Some kp /\
  match websocket (fst twice) with
  | Some ws => subscriptions ws = [event; event]
  | None => False
  end /\
  List.length
    (calls_to "holo/clientSignature"
       (deliver (sodium := Toy.sodium) Toy.host event
          {| entry := "abc"; id := VStr "7" |} (fst twice))) = 2.
Proof.
  cbv zeta. repeat split; vm_compute; reflexivity.
Qed.

(** C4 (as the code has it): when a keypair is bound on a session with an
    open channel, bound before or not, the identify call is made, the event
    name of the new identity is subscribed and a function is registered for
    it; the subscriptions and registered functions the channel had are all
    kept, in their order, in front of the new ones. *)
Theorem C4_rebinding_keeps_subscriptions {hcid : Hcid}
    (host : string -> value -> promise value) (s : Session)
    (ws : WebsocketClient) (kp : Keypair) (agentId : string)
    (answer : value) :
  websocket s = Some ws ->
  hcs0_encode (_signPub kp) = Val agentId ->
  host "holo/identify" (VObj [("agentId", VStr agentId)]) = Fulfilled answer ->
  exists bound ws',
    sendClientSignature host (Some kp) s = (bound, Fulfilled tt) /\
    keypair bound = Some kp /\
    websocket bound = Some ws' /\
    calls ws' = calls ws ++ [identify_call agentId] /\
    subscriptions ws'
      = subscriptions ws ++ [sign_event_name (Some agentId)] /\
    listeners ws'
      = listeners ws ++ [(sign_event_name (Some agentId), SignOnRequest)].
Proof.
  intros Hws Hid Hhost.
  exists (bound_session s ws kp agentId). eexists.
  split; [apply (sendClientSignature_bound host s ws kp agentId answer);
          assumption|].
  repeat split.
Qed.

Lemma C4_rebinding_keeps_subscriptions_witness :
  let id1 := ("Hc" ++ string_of_list_byte (Toy.fit32 Toy.seed1))%string in
  let id2 := ("Hc" ++ string_of_list_byte (Toy.fit32 Toy.seed2))%string in
  exists bound ws',
    sendClientSignature (hcid := Toy.hcid) Toy.host
      (Some (Toy.keypair_of Toy.seed2))
      (bound_session Toy.fresh_session Toy.open_channel
         (Toy.keypair_of Toy.seed1) id1)
      = (bound, Fulfilled tt) /\
    keypair bound = Some (Toy.keypair_of Toy.seed2) /\
    websocket bound = Some ws' /\
    calls ws' = [identify_call id1] ++ [identify_call id2] /\
    subscriptions ws'
      = [sign_event_name (Some id1)] ++ [sign_event_name (Some id2)] /\
    listeners ws'
      = [(sign_event_name (Some id1), SignOnRequest)]
        ++ [(sign_event_name (Some id2), SignOnRequest)].
Proof.
  cbv zeta.
  apply (@C4_rebinding_keeps_subscriptions Toy.hcid Toy.host
           (bound_session Toy.fresh_session Toy.open_channel
              (Toy.keypair_of Toy.seed1)
              ("Hc" ++ string_of_list_byte (Toy.fit32 Toy.seed1))%string)
           {| calls :=
                [identify_call
                   ("Hc" ++ string_of_list_byte (Toy.fit32 Toy.seed1))%string];
              subscriptions :=
                [sign_event_name
                   (Some ("Hc" ++ string_of_list_byte (Toy.fit32 Toy.seed1))
                      %string)];
              listeners :=
                [(sign_event_name
                    (Some ("Hc" ++ string_of_list_byte (Toy.fit32 Toy.seed1))
                       %string),
                  SignOnRequest)] |}
           (Toy.keypair_of Toy.seed2)
           ("Hc" ++ string_of_list_byte (Toy.fit32 Toy.seed2))%string
           (VObj [("Ok", VBool true)]));
    reflexivity.
Defined.

(** C4, as stated, fails: after a first keypair and then a second one are
    bound on the open channel, the event name of the first identity is still
    subscribed and its function is still registered, next to those of the
    second identity. *)
Lemma C4_previous_subscription_kept_counterexample :
  let id1 := ("Hc" ++ string_of_list_byte (Toy.fit32 Toy.seed1))%string in
  let id2 := ("Hc" ++ string_of_list_byte (Toy.fit32 Toy.seed2))%string in
  let first :=
    sendClientSignature (hcid := Toy.hcid) Toy.host
      (Some (Toy.keypair_of Toy.seed1)) Toy.fresh_session in
  let second :=
    sendClientSignature (hcid := Toy.hcid) Toy.host
      (Some (Toy.keypair_of Toy.seed2)) (fst first) in
  snd first = Fulfilled tt /\
  snd second = Fulfilled tt /\
  keypair (fst second) = Some (Toy.keypair_of Toy.seed2) /\
  sign_event_name (Some id1) <> sign_event_name (Some id2) /\
  match websocket (fst second) with
  | Some ws =>
      subscriptions ws
        = [sign_event_name (Some id1); sign_event_name (Some id2)] /\
      listeners ws
        = [(sign_event_name (Some id1), SignOnRequest);
           (sign_event_name (Some id2), SignOnRequest)]
  | None => False
  end.
Proof.
  cbv zeta. repeat split; try (vm_compute; reflexivity).
  vm_compute. discriminate.
Qed.

(** ** Regenerating a keypair *)

(** C5 (as the code has it): when the salt lookup for the email rejects or
    resolves to no salt, [regenerateReadwriteKeypair] produces no keypair: it
    resolves to [undefined]; it rejects nothing, and a rejection of the
    lookup is only written to the console as
    "No salt found. Unable to log in.". *)
Theorem C5_regenerate_without_salt {sodium : Sodium} (email password : string)
    (getRegisteredSaltCallback : string -> promise (option bytes))
    (g : rng) :
  (getRegisteredSaltCallback email = Fulfilled None \/
   exists e, getRegisteredSaltCallback email = Rejected e) ->
  fst (regenerateReadwriteKeypair email password getRegisteredSaltCallback g)
    = Fulfilled None /\
  ((exists e, getRegisteredSaltCallback email = Rejected e) ->
   snd (regenerateReadwriteKeypair email password getRegisteredSaltCallback g)
     = ["No salt found. Unable to log in."]).
Proof.
  intros H. unfold regenerateReadwriteKeypair. split.
  - destruct H as [H|[e H]]; rewrite H; reflexivity.
  - intros [e He]. rewrite He. reflexivity.
Qed.

Lemma C5_regenerate_without_salt_witness :
  fst (regenerateReadwriteKeypair (sodium := Toy.sodium)
         "agent@holo.host" "hunter2"
         (fun _ => Rejected (Error "404 Not Found")) Toy.zeros)
    = Fulfilled None /\
  ((exists e, Rejected (A := option bytes) (Error "404 Not Found")
              = Rejected e) ->
   snd (regenerateReadwriteKeypair (sodium := Toy.sodium)
          "agent@holo.host" "hunter2"
          (fun _ => Rejected (Error "404 Not Found")) Toy.zeros)
     = ["No salt found. Unable to log in."]).
Proof.
  apply (@C5_regenerate_without_salt Toy.sodium "agent@holo.host" "hunter2"
           (fun _ => Rejected (Error "404 Not Found")) Toy.zeros).
  right. exists (Error "404 Not Found"). reflexivity.
Defined.

(** C5, as stated, fails: with a lookup that rejects, and with one that
    finds no salt, the promise of [regenerateReadwriteKeypair] is fulfilled
    with [undefined]; it is not rejected. *)
Lemma C5_no_rejection_counterexample :
  let rejects :=
    fst (regenerateReadwriteKeypair (sodium := Toy.sodium)
           "agent@holo.host" "hunter2"
           (fun _ => Rejected (Error "404 Not Found")) Toy.zeros) in
  let absent :=
    fst (regenerateReadwriteKeypair (sodium := Toy.sodium)
           "agent@holo.host" "hunter2"
           (fun _ => Fulfilled None) Toy.zeros) in
  rejects = Fulfilled None /\ absent = Fulfilled None /\
  (forall e, rejects <> Rejected e) /\ (forall e, absent <> Rejected e).
Proof.
  cbv zeta. repeat split; try reflexivity; intros e; discriminate.
Qed.

(** * Further properties of the code *)

(** ** Combining entropy *)

Lemma XorUint8Array_nth (a b : bytes) (i : nat) :
  i < List.length a ->
  nth_error (XorUint8Array a b) i
  = Some (uint8 (Z.lxor (index_int a i) (index_int b i))).
Proof.
  intros Hi. unfold XorUint8Array.
  rewrite nth_error_map, nth_error_seq.
  destruct (Nat.ltb_spec i (List.length a)) as [_|Hge]; [reflexivity|lia].
Qed.

(** X1: [XorUint8Array] never fails on arrays of different lengths: the
    result has the length of the first array, and where the second array
    has no byte the byte of the first is kept. *)
Theorem X1_XorUint8Array_shorter_second (a b : bytes) (i : nat) :
  List.length b <= i -> i < List.length a ->
  List.length (XorUint8Array a b) = List.length a /\
  nth_error (XorUint8Array a b) i = nth_error a i.
Proof.
  intros Hb Ha. split; [apply XorUint8Array_length|].
  rewrite XorUint8Array_nth by assumption.
  unfold index_int at 2.
  replace (nth_error b i) with (@None byte)
    by (symmetry; apply nth_error_None; exact Hb).
  rewrite Z.lxor_0_r. unfold index_int.
  destruct (nth_error a i) as [x|] eqn:E.
  - rewrite uint8_byte_to_Z. reflexivity.
  - apply nth_error_None in E. lia.
Qed.

Lemma X1_XorUint8Array_shorter_second_witness :
  List.length (XorUint8Array [x0a; x0b; x0c] [xff]) = 3 /\
  nth_error (XorUint8Array [x0a; x0b; x0c] [xff]) 2 = Some x0c.
Proof.
  apply (X1_XorUint8Array_shorter_second [x0a; x0b; x0c] [xff] 2);
    cbn; lia.
Defined.

Lemma XorUint8Array_comm (a b : bytes) :
  List.length a = List.length b -> XorUint8Array a b = XorUint8Array b a.
Proof.
  intros Hlen. apply bytes_ext.
  - rewrite !XorUint8Array_length. exact Hlen.
  - intros i Hi. rewrite XorUint8Array_length in Hi.
    rewrite !XorUint8Array_nth by lia. rewrite Z.lxor_comm. reflexivity.
Qed.

(** X2: [generateReadonlyKeypair] gives the same keypair when its two
    entropy generators are exchanged, as long as they resolve to arrays of
    one length. *)
Theorem X2_generateReadonlyKeypair_symmetric {sodium : Sodium}
    (remote local : bytes) :
  List.length remote = List.length local ->
  generateReadonlyKeypair (Fulfilled remote) (Fulfilled local)
  = generateReadonlyKeypair (Fulfilled local) (Fulfilled remote).
Proof.
  intros Hlen. unfold generateReadonlyKeypair. cbn [JS.await].
  rewrite (XorUint8Array_comm remote local Hlen). reflexivity.
Qed.

Lemma X2_generateReadonlyKeypair_symmetric_witness :
  generateReadonlyKeypair (sodium := Toy.sodium)
    (Fulfilled (repeat x00 32)) (Fulfilled (repeat x01 32))
  = generateReadonlyKeypair (sodium := Toy.sodium)
      (Fulfilled (repeat x01 32)) (Fulfilled (repeat x00 32)).
Proof.
  apply (@X2_generateReadonlyKeypair_symmetric Toy.sodium
           (repeat x00 32) (repeat x01 32)).
  reflexivity.
Defined.

(** ** Signing, identities and bundles *)

(** X3: what a keypair made by [newFromSeed] signs, it verifies; and so does
    a keypair that holds nothing but its identity string: verification
    needs no private key. *)
Theorem X3_sign_then_verify {sodium : Sodium} (seed : bytes) (k : Keypair)
    (msg : string) :
  sodium_ready -> base64_round_trip -> public_keys_32 -> signatures_verify ->
  newFromSeed seed = Fulfilled k ->
  exists signature,
    sign k msg = Val (Fulfilled signature) /\
    verify k signature msg = Fulfilled true /\
    verify (public_only (getId k)) signature msg = Fulfilled true.
Proof.
  intros Hready Hb64 Hlen Hsig Hk.
  rewrite (newFromSeed_eq Hready) in Hk.
  assert (E : k = keypair_of_seed seed) by congruence. subst k.
  exists (crypto_sign_detached msg (snd (crypto_sign_seed_keypair seed))).
  split; [apply sign_with_key; [assumption|reflexivity]|].
  split; [apply verify_derived; assumption|].
  change (verify (public_only (getId (keypair_of_seed seed))))
    with (verify (keypair_of_seed seed)).
  apply verify_derived; assumption.
Qed.

Lemma X3_sign_then_verify_witness :
  exists signature,
    sign (sodium := Toy.sodium) (Toy.keypair_of Toy.seed1) "abc"
      = Val (Fulfilled signature) /\
    verify (sodium := Toy.sodium) (Toy.keypair_of Toy.seed1) signature "abc"
      = Fulfilled true /\
    verify (sodium := Toy.sodium)
      (public_only (getId (Toy.keypair_of Toy.seed1))) signature "abc"
      = Fulfilled true.
Proof.
  apply (@X3_sign_then_verify Toy.sodium Toy.seed1 (Toy.keypair_of Toy.seed1)
           "abc" ToyFacts.toy_ready ToyFacts.toy_base64
           ToyFacts.toy_public_keys_32 ToyFacts.toy_signatures_verify).
  reflexivity.
Defined.

(** X4: [decodeId] gives back the two keys that [encodeId] was given when
    both are 32 bytes long. *)
Theorem X4_decodeId_encodeId {sodium : Sodium} (a b : bytes) :
  sodium_ready -> base64_round_trip ->
  List.length a = 32 -> List.length b = 32 ->
  exists identity,
    util.encodeId (Some a) (Some b) = Fulfilled identity /\
    util.decodeId identity = Fulfilled {| signPub := a; encPub := b |}.
Proof.
  intros Hready Hb64 Ha Hb. eexists.
  split; [apply encodeId_some; assumption|].
  unfold util.decodeId. rewrite Hready. cbn [JS.then_dropped]. rewrite Hb64.
  rewrite slice_left, slice_right by assumption. reflexivity.
Qed.

Lemma X4_decodeId_encodeId_witness :
  exists identity,
    util.encodeId (sodium := Toy.sodium)
      (Some (repeat x01 32)) (Some (repeat x02 32)) = Fulfilled identity /\
    util.decodeId (sodium := Toy.sodium) identity
    = Fulfilled {| signPub := repeat x01 32; encPub := repeat x02 32 |}.
Proof.
  apply (@X4_decodeId_encodeId Toy.sodium (repeat x01 32) (repeat x02 32)
           ToyFacts.toy_ready ToyFacts.toy_base64); reflexivity.
Defined.

Lemma decodeId_undecodable {sodium : Sodium} (identity : string) (e : error) :
  from_base64 identity URLSAFE_NO_PADDING = Throw e ->
  util.decodeId identity = Pending.
Proof.
  intros H. unfold util.decodeId.
  destruct ready as [[]| |]; cbn [JS.then_dropped]; [rewrite H| |];
    reflexivity.
Qed.

(** X5: with an identity string that is not base64, [decodeId] and both
    [verify] functions return a promise that is never settled: the error of
    the decoder is thrown inside a dropped callback and reaches no one. *)
Theorem X5_undecodable_identity_never_settles {sodium : Sodium}
    (identity : string) (e : error) (signature : bytes) (msg : string) :
  from_base64 identity URLSAFE_NO_PADDING = Throw e ->
  util.decodeId identity = Pending /\
  util.verify signature msg identity = Pending /\
  verify (public_only identity) signature msg = Pending.
Proof.
  intros H. pose proof (decodeId_undecodable identity e H) as Hd.
  split; [exact Hd|].
  assert (Hv : util.verify signature msg identity = Pending).
  { unfold util.verify. rewrite Hd. reflexivity. }
  split; [exact Hv|].
  unfold verify. cbn [public_only _pubkeys]. rewrite Hv. reflexivity.
Qed.

Lemma X5_undecodable_identity_never_settles_witness :
  util.decodeId (sodium := ToyMore.strict_sodium) "not base64!" = Pending /\
  util.verify (sodium := ToyMore.strict_sodium) [] "abc" "not base64!"
    = Pending /\
  verify (sodium := ToyMore.strict_sodium) (public_only "not base64!")
    [] "abc" = Pending.
Proof.
  apply (@X5_undecodable_identity_never_settles ToyMore.strict_sodium
           "not base64!" (SodiumError "invalid input") [] "abc").
  reflexivity.
Defined.

(** X6: a bundle made from a keypair that holds both public keys opens,
    under the same passphrase, to a keypair with the same four key fields,
    an absent private key staying absent; its identity string is computed
    anew from the two public keys, whatever the identity string of the
    original was. *)
Theorem X6_fromBundle_recomputes_identity {sodium : Sodium}
    {msgpack : Msgpack} (k : Keypair) (a b : bytes) (p h : string)
    (g g' : rng) :
  sodium_ready -> msgpack_round_trip -> aead_round_trip ->
  _signPub k = Some a -> _encPub k = Some b ->
  exists bundle,
    getBundle k p h g = Fulfilled bundle /\
    fromBundle bundle p g'
    = Fulfilled {| _pubkeys := to_base64 (a ++ b) URLSAFE_NO_PADDING;
                   _signPub := Some a;
                   _encPub := Some b;
                   _signPriv := _signPriv k;
                   _encPriv := _encPriv k |}.
Proof.
  intros Hready Hmp Haead Ha Hb.
  eexists. split; [apply getBundle_eq; assumption|].
  unfold fromBundle. cbn [data]. rewrite pwDec_box by assumption.
  unfold box_cipher. rewrite Haead. cbn [JS.then_dropped]. rewrite Hmp.
  unfold key_fields. rewrite Ha, Hb.
  cbn [mp_at nth mp_of_option option_of_mp].
  rewrite encodeId_some by assumption.
  destruct (_signPriv k), (_encPriv k); reflexivity.
Qed.

Lemma X6_fromBundle_recomputes_identity_witness :
  exists bundle,
    getBundle (sodium := Toy.sodium) (msgpack := Toy.msgpack)
      (ToyMore.public_keys_of Toy.seed1) "correct horse" "laptop" Toy.zeros
      = Fulfilled bundle /\
    fromBundle (sodium := Toy.sodium) (msgpack := Toy.msgpack)
      bundle "correct horse" Toy.zeros
    = Fulfilled
        {| _pubkeys :=
             string_of_list_byte (Toy.fit32 Toy.seed1 ++ Toy.fit32 Toy.seed1);
           _signPub := Some (Toy.fit32 Toy.seed1);
           _encPub := Some (Toy.fit32 Toy.seed1);
           _signPriv := None;
           _encPriv := None |}.
Proof.
  apply (@X6_fromBundle_recomputes_identity Toy.sodium Toy.msgpack
           (ToyMore.public_keys_of Toy.seed1)
           (Toy.fit32 Toy.seed1) (Toy.fit32 Toy.seed1)
           "correct horse" "laptop" Toy.zeros Toy.zeros
           ToyFacts.toy_ready ToyFacts.toy_msgpack
           ToyFacts.toy_aead_round_trip); reflexivity.
Defined.

(** X7: a bundle made from a keypair that lacks a public key, such as one
    made from an identity string alone, never opens: under the right
    passphrase the promise of [fromBundle] is never settled. *)
Theorem X7_fromBundle_without_public_key {sodium : Sodium}
    {msgpack : Msgpack} (k : Keypair) (p h : string) (g g' : rng) :
  sodium_ready -> msgpack_round_trip -> aead_round_trip ->
  _signPub k = None \/ _encPub k = None ->
  exists bundle,
    getBundle k p h g = Fulfilled bundle /\
    fromBundle bundle p g' = Pending.
Proof.
  intros Hready Hmp Haead Hk.
  eexists. split; [apply getBundle_eq; assumption|].
  unfold fromBundle. cbn [data]. rewrite pwDec_box by assumption.
  unfold box_cipher. rewrite Haead. cbn [JS.then_dropped]. rewrite Hmp.
  unfold key_fields, util.encodeId. rewrite Hready.
  cbn [mp_at nth JS.then_dropped].
  destruct Hk as [Hk|Hk]; rewrite Hk;
    cbn [mp_of_option option_of_mp util.spread2];
    [reflexivity|]. destruct (_signPub k); reflexivity.
Qed.

Lemma X7_fromBundle_without_public_key_witness :
  exists bundle,
    getBundle (sodium := Toy.sodium) (msgpack := Toy.msgpack)
      (public_only "an identity") "correct horse" "laptop" Toy.zeros
      = Fulfilled bundle /\
    fromBundle (sodium := Toy.sodium) (msgpack := Toy.msgpack)
      bundle "correct horse" Toy.zeros = Pending.
Proof.
  apply (@X7_fromBundle_without_public_key Toy.sodium Toy.msgpack
           (public_only "an identity") "correct horse" "laptop"
           Toy.zeros Toy.zeros
           ToyFacts.toy_ready ToyFacts.toy_msgpack
           ToyFacts.toy_aead_round_trip).
  left. reflexivity.
Defined.

(** X8: what [pwEnc] encrypts under a passphrase and associated data,
    [pwDec] decrypts under the same two, whatever the random draws. *)
Theorem X8_pwDec_pwEnc {sodium : Sodium} {msgpack : Msgpack}
    (content : bytes) (p : string) (adata : option bytes) (g g' : rng) :
  sodium_ready -> msgpack_round_trip -> aead_round_trip ->
  exists box0,
    util.pwEnc content p adata g = Fulfilled box0 /\
    util.pwDec box0 p adata g' = Val (Fulfilled content).
Proof.
  intros Hready Hmp Haead.
  eexists. split; [apply pwEnc_eq; assumption|].
  rewrite pwDec_box by assumption. unfold box_cipher. rewrite Haead.
  reflexivity.
Qed.

Lemma X8_pwDec_pwEnc_witness :
  exists box0,
    util.pwEnc (sodium := Toy.sodium) (msgpack := Toy.msgpack)
      [x68; x69] "correct horse" (Some [x01]) Toy.zeros = Fulfilled box0 /\
    util.pwDec (sodium := Toy.sodium) (msgpack := Toy.msgpack)
      box0 "correct horse" (Some [x01]) Toy.zeros
    = Val (Fulfilled [x68; x69]).
Proof.
  apply (@X8_pwDec_pwEnc Toy.sodium Toy.msgpack [x68; x69] "correct horse"
           (Some [x01]) Toy.zeros Toy.zeros
           ToyFacts.toy_ready ToyFacts.toy_msgpack
           ToyFacts.toy_aead_round_trip).
Defined.

(** X9: a bundle whose data is not a msgpack document is refused with a
    rejection that carries the error of the decoder: [pwDec] throws before it
    makes a promise, inside the executor of [fromBundle]. *)
Theorem X9_fromBundle_malformed_data {sodium : Sodium} {msgpack : Msgpack}
    (bundle : Bundle) (p : string) (g : rng) (e : error) :
  msgpack_decode (data bundle) = Throw e ->
  util.pwDec (data bundle) p None g = Throw e /\
  fromBundle bundle p g = Rejected e.
Proof.
  intros H. assert (Hd : util.pwDec (data bundle) p None g = Throw e).
  { unfold util.pwDec. rewrite H. reflexivity. }
  split; [exact Hd|]. unfold fromBundle. rewrite Hd. reflexivity.
Qed.

Lemma X9_fromBundle_malformed_data_witness :
  util.pwDec (sodium := Toy.sodium) (msgpack := Toy.msgpack)
    [] "correct horse" None Toy.zeros
  = Throw (Error "malformed document") /\
  fromBundle (sodium := Toy.sodium) (msgpack := Toy.msgpack)
    {| type := "hcKeypair"; hint := "laptop"; data := [] |}
    "correct horse" Toy.zeros
  = Rejected (Error "malformed document").
Proof.
  apply (@X9_fromBundle_malformed_data Toy.sodium Toy.msgpack
           {| type := "hcKeypair"; hint := "laptop"; data := [] |}
           "correct horse" Toy.zeros (Error "malformed document")).
  reflexivity.
Defined.

(** ** Encryption and decryption at the edges *)

Section EncryptEdges.
Context {sodium : Sodium} {msgpack : Msgpack}.

Lemma encrypt_chain_without_keys (k : Keypair) (symSecret : bytes)
    (adata : option bytes) (recipientId : string) (out : list bytes)
    (g : rng) :
  _encPub k = None \/ _encPriv k = None ->
  encrypt_chain k symSecret adata recipientId out g = None.
Proof.
  intros Hk. unfold encrypt_chain.
  destruct (util.decodeId recipientId) as [key| |]; cbn [JS.then_];
    try reflexivity.
  unfold kx_server.
  destruct Hk as [Hk|Hk]; rewrite Hk; [|destruct (_encPub k)]; reflexivity.
Qed.

Lemma encrypt_chain_undecodable (k : Keypair) (symSecret : bytes)
    (adata : option bytes) (recipientId : string) (e : error)
    (out : list bytes) (g : rng) :
  from_base64 recipientId URLSAFE_NO_PADDING = Throw e ->
  encrypt_chain k symSecret adata recipientId out g = None.
Proof.
  intros H. unfold encrypt_chain.
  rewrite (decodeId_undecodable recipientId e H). reflexivity.
Qed.

Lemma encrypt_loop_no_chain (k : Keypair) (symSecret : bytes)
    (adata : option bytes) (recipientIds : list string) :
  (forall id out g, In id recipientIds ->
     encrypt_chain k symSecret adata id out g = None) ->
  forall out g, encrypt_loop k symSecret adata recipientIds out g = NoSettle.
Proof.
  induction recipientIds as [|id rest IH]; intros Hdead out g;
    [reflexivity|].
  cbn [encrypt_loop]. rewrite (Hdead id out g (or_introl eq_refl)).
  destruct rest as [|id' rest']; [reflexivity|].
  apply IH. intros id0 out0 g0 Hin. apply Hdead. right. exact Hin.
Qed.

Lemma encrypt_of_loop (k : Keypair) (ids ids' : list string)
    (d : plaintext) (adata : option bytes) (g : rng) :
  (forall symSecret g1,
     encrypt_loop k symSecret adata ids [] g1
     = encrypt_loop k symSecret adata ids' [] g1) ->
  encrypt k ids d adata g = encrypt k ids' d adata g.
Proof.
  intros H. unfold encrypt, util.randomBytes.
  destruct ready as [[]| |]; try reflexivity.
  cbn [JS.then_dropped JS.resolve_then_reject JS.new_Promise JS.then_].
  destruct (randombytes_buf 32 g) as [symSecret g1]. rewrite H. reflexivity.
Qed.

Lemma encrypt_loop_unsettled (k : Keypair) (ids : list string)
    (d : plaintext) (adata : option bytes) (g : rng) :
  (forall symSecret g1,
     encrypt_loop k symSecret adata ids [] g1 = NoSettle) ->
  encrypt k ids d adata g = Pending.
Proof.
  intros H. unfold encrypt, util.randomBytes.
  destruct ready as [[]| |]; try reflexivity.
  cbn [JS.then_dropped JS.resolve_then_reject JS.new_Promise JS.then_].
  destruct (randombytes_buf 32 g) as [symSecret g1]. rewrite H. reflexivity.
Qed.

(** The loop passes over a recipient whose chain stops, as long as it is not
    the last one. *)
Lemma encrypt_loop_skip (k : Keypair) (symSecret : bytes)
    (adata : option bytes) (dead : string) (post : list string) :
  (forall out g, encrypt_chain k symSecret adata dead out g = None) ->
  post <> [] ->
  forall (pre : list string) (out : list bytes) (g : rng),
    encrypt_loop k symSecret adata (pre ++ dead :: post) out g
    = encrypt_loop k symSecret adata (pre ++ post) out g.
Proof.
  intros Hdead Hpost. induction pre as [|id pre IH]; intros out g.
  - cbn [app encrypt_loop]. rewrite Hdead.
    destruct post as [|id' rest]; [contradiction|reflexivity].
  - cbn [app encrypt_loop].
    destruct (pre ++ dead :: post) as [|x xs] eqn:E1;
      [destruct pre; discriminate|].
    destruct (pre ++ post) as [|y ys] eqn:E2.
    { apply app_eq_nil in E2. destruct E2 as [_ E2]. contradiction. }
    destruct (encrypt_chain k symSecret adata id out g) as [[out' g']|];
      apply IH.
Qed.

(** The loop settles nothing when the chain of the last recipient stops. *)
Lemma encrypt_loop_last (k : Keypair) (symSecret : bytes)
    (adata : option bytes) (dead : string) :
  (forall out g, encrypt_chain k symSecret adata dead out g = None) ->
  forall (pre : list string) (out : list bytes) (g : rng),
    encrypt_loop k symSecret adata (pre ++ [dead]) out g = NoSettle.
Proof.
  intros Hdead. induction pre as [|id pre IH]; intros out g.
  - cbn [app encrypt_loop]. rewrite Hdead. reflexivity.
  - cbn [app encrypt_loop].
    destruct (pre ++ [dead]) as [|x xs] eqn:E; [destruct pre; discriminate|].
    destruct (encrypt_chain k symSecret adata id out g) as [[out' g']|];
      apply IH.
Qed.

End EncryptEdges.

(** X10: [encrypt] returns a promise that is never settled when the list of
    recipients is empty, and when the encrypting keypair lacks one of its
    encryption keys, whoever the recipients are; no error is reported in
    either case. *)
Theorem X10_encrypt_never_settles {sodium : Sodium} {msgpack : Msgpack}
    (k : Keypair) (recipientIds : list string) (d : plaintext)
    (adata : option bytes) (g : rng) :
  encrypt k [] d adata g = Pending /\
  (_encPub k = None \/ _encPriv k = None ->
   encrypt k recipientIds d adata g = Pending).
Proof.
  split.
  - apply encrypt_loop_unsettled. reflexivity.
  - intros Hk. apply encrypt_loop_unsettled. intros symSecret g1.
    apply encrypt_loop_no_chain. intros id out g0 _.
    apply encrypt_chain_without_keys. exact Hk.
Qed.

Lemma X10_encrypt_never_settles_witness :
  encrypt (sodium := Toy.sodium) (msgpack := Toy.msgpack)
    (ToyMore.public_keys_of Toy.seed1) [] (Text "attack at dawn") None
    Toy.zeros
    = Pending /\
  encrypt (sodium := Toy.sodium) (msgpack := Toy.msgpack)
    (ToyMore.public_keys_of Toy.seed1)
    [getId (Toy.keypair_of Toy.seed2)] (Text "attack at dawn") None Toy.zeros
    = Pending.
Proof.
  destruct (@X10_encrypt_never_settles Toy.sodium Toy.msgpack
              (ToyMore.public_keys_of Toy.seed1)
              [getId (Toy.keypair_of Toy.seed2)] (Text "attack at dawn") None
              Toy.zeros) as [Hempty Hkeys].
  split; [exact Hempty|]. apply Hkeys. right. reflexivity.
Defined.

(** X11: a recipient identity that is not base64 is passed over without a
    word wherever it stands in the list, as long as it is not the last: the
    ciphertext is the one made for the list without it.  When it is the last
    of the list, the promise of [encrypt] is never settled, whoever comes
    before it. *)
Theorem X11_encrypt_undecodable_recipient {sodium : Sodium}
    {msgpack : Msgpack} (k : Keypair) (bad : string) (e : error)
    (pre post : list string) (d : plaintext) (adata : option bytes)
    (g : rng) :
  from_base64 bad URLSAFE_NO_PADDING = Throw e ->
  (post <> [] ->
   encrypt k (pre ++ bad :: post) d adata g
   = encrypt k (pre ++ post) d adata g) /\
  encrypt k (pre ++ [bad]) d adata g = Pending.
Proof.
  intros Hbad. split.
  - intros Hne. apply encrypt_of_loop. intros symSecret g1.
    apply encrypt_loop_skip; [|exact Hne]. intros out g0.
    apply (encrypt_chain_undecodable k symSecret adata bad e out g0 Hbad).
  - apply encrypt_loop_unsettled. intros symSecret g1.
    apply encrypt_loop_last. intros out g0.
    apply (encrypt_chain_undecodable k symSecret adata bad e out g0 Hbad).
Qed.

Lemma X11_encrypt_undecodable_recipient_witness :
  encrypt (sodium := ToyMore.strict_sodium) (msgpack := Toy.msgpack)
    (Toy.keypair_of Toy.seed1)
    ([getId (Toy.keypair_of Toy.seed2)] ++
     "not base64!" :: [getId (Toy.keypair_of Toy.seed3)])
    (Text "attack at dawn") None Toy.zeros
  = encrypt (sodium := ToyMore.strict_sodium) (msgpack := Toy.msgpack)
      (Toy.keypair_of Toy.seed1)
      ([getId (Toy.keypair_of Toy.seed2)] ++
       [getId (Toy.keypair_of Toy.seed3)])
      (Text "attack at dawn") None Toy.zeros
  /\
  encrypt (sodium := ToyMore.strict_sodium) (msgpack := Toy.msgpack)
    (Toy.keypair_of Toy.seed1)
    ([getId (Toy.keypair_of Toy.seed2)] ++ ["not base64!"])
    (Text "attack at dawn") None Toy.zeros
  = Pending.
Proof.
  destruct (@X11_encrypt_undecodable_recipient ToyMore.strict_sodium
              Toy.msgpack (Toy.keypair_of Toy.seed1) "not base64!"
              (SodiumError "invalid input")
              [getId (Toy.keypair_of Toy.seed2)]
              [getId (Toy.keypair_of Toy.seed3)] (Text "attack at dawn") None
              Toy.zeros eq_refl) as [Hskip Hlast].
  split; [apply Hskip; discriminate | exact Hlast].
Defined.

(** X12: [decrypt] called on a keypair that lacks one of its encryption keys
    returns a promise that is never settled, whatever the ciphertext
    decodes to: the key exchange throws inside a dropped callback, and no
    rejection reaches the caller. *)
Theorem X12_decrypt_without_keys {sodium : Sodium} {msgpack : Msgpack}
    (k : Keypair) (sId : string) (cipher : bytes) (adata : option bytes)
    (doc : mp) :
  _encPub k = None \/ _encPriv k = None ->
  msgpack_decode cipher = Val doc ->
  decrypt k sId cipher adata = Val Pending.
Proof.
  intros Hk Hdoc. unfold decrypt. rewrite Hdoc.
  destruct ready as [[]| |]; try reflexivity. cbn [JS.then_dropped].
  destruct (util.decodeId sId) as [id| |]; try reflexivity.
  cbn [JS.then_dropped]. unfold kx_client.
  destruct Hk as [Hk|Hk]; rewrite Hk; [|destruct (_encPub k)]; reflexivity.
Qed.

Lemma X12_decrypt_without_keys_witness :
  decrypt (sodium := Toy.sodium) (msgpack := Toy.msgpack)
    (public_only (getId (Toy.keypair_of Toy.seed2)))
    (getId (Toy.keypair_of Toy.seed1)) (Toy.encode (MArray [])) None
  = Val Pending.
Proof.
  apply (@X12_decrypt_without_keys Toy.sodium Toy.msgpack
           (public_only (getId (Toy.keypair_of Toy.seed2)))
           (getId (Toy.keypair_of Toy.seed1)) (Toy.encode (MArray [])) None
           (MArray [])).
  - left. reflexivity.
  - reflexivity.
Defined.




(** ** The salt service and the read-write keypairs *)

(** X14: a salt lookup sends no body and asks for [?<email>=<value>], where
    the value is what the object [{email}] shows under the name that the
    email spells: [undefined] for an email that is neither the word "email"
    nor the name of a member that every object inherits, and the text of
    that member for one that is.  The query is appended to the url of the
    module for good: the next lookup and the next request for entropy go to
    the url with every earlier query still on it. *)
Theorem X14_saltmine_url_grows {sodium : Sodium} {web : Web}
    (fetch : Request -> promise Response) (email1 email2 base : string) :
  email1 <> "email" -> email2 <> "email" ->
  let query := fun e found =>
    ("?" ++ encodeURIComponent e ++ "=" ++ encodeURIComponent found)
    %string in
  let first := getRegisteredSalt fetch email1 base in
  let second := getRegisteredSalt fetch email2 (fst first) in
  let third := getRemoteEntropy fetch (fst second) in
  (Object_prototype email1 = None ->
   Object_prototype email2 = None ->
   fst first = (base ++ query email1 "undefined")%string /\
   snd first
   = Val (first_32_bytes
            (fetch {| url := (base ++ query email1 "undefined")%string;
                      http_method := "GET"; body := None |})) /\
   fst third
   = ((base ++ query email1 "undefined") ++ query email2 "undefined")%string /\
   snd third
   = Val (first_32_bytes
            (fetch {| url := ((base ++ query email1 "undefined")
                              ++ query email2 "undefined")%string;
                      http_method := "GET"; body := None |}))) /\
  (forall member,
     Object_prototype email1 = Some member ->
     fst first = (base ++ query email1 member)%string).
Proof.
  intros H1 H2. cbv zeta.
  assert (E1 : String.eqb "email" email1 = false)
    by (apply String.eqb_neq; congruence).
  assert (E2 : String.eqb "email" email2 = false)
    by (apply String.eqb_neq; congruence).
  unfold getRegisteredSalt, getRemoteEntropy, through_saltmine, callSaltmine,
    param.
  rewrite !String.eqb_refl. cbn [fst snd own_param].
  rewrite !String.eqb_refl. cbn [fst snd own_param String_of].
  rewrite E1, E2. split.
  - intros P1 P2. rewrite P1, P2. cbn [fst snd String_of].
    repeat split; reflexivity.
  - intros member P1. rewrite P1. reflexivity.
Qed.

Lemma X14_saltmine_url_grows_witness :
  fst (getRemoteEntropy (sodium := Toy.sodium) (web := ToyMore.web)
         ToyMore.fetch
         (fst (getRegisteredSalt (sodium := Toy.sodium) (web := ToyMore.web)
                 ToyMore.fetch "bob@holo.host"
                 (fst (getRegisteredSalt (sodium := Toy.sodium)
                         (web := ToyMore.web) ToyMore.fetch "alice@holo.host"
                         "//saltmine.holohost.net")))))
  = "//saltmine.holohost.net?alice@holo.host=undefined?bob@holo.host=undefined"
  /\
  fst (getRegisteredSalt (sodium := Toy.sodium) (web := ToyMore.web)
         ToyMore.fetch "__proto__" "//saltmine.holohost.net")
  = "//saltmine.holohost.net?__proto__=[object Object]".
Proof.
  split.
  - destruct (@X14_saltmine_url_grows Toy.sodium ToyMore.web ToyMore.fetch
                "alice@holo.host" "bob@holo.host" "//saltmine.holohost.net")
      as [H _]; [discriminate | discriminate |].
    destruct (H eq_refl eq_refl) as [_ [_ [H3 _]]]. exact H3.
  - destruct (@X14_saltmine_url_grows Toy.sodium ToyMore.web ToyMore.fetch
                "__proto__" "bob@holo.host" "//saltmine.holohost.net")
      as [_ H]; [discriminate | discriminate |].
    apply (H "[object Object]"). reflexivity.
Defined.

(** X15: the answer of the salt service is decoded and cut to its first 32
    bytes; a text that is not base64 rejects the promise with the error of
    the decoder. *)
Theorem X15_first_32_bytes {sodium : Sodium} (answer : Response)
    (str : string) :
  sodium_ready -> text answer = Fulfilled str ->
  (forall b, from_base64 str ORIGINAL = Val b ->
     first_32_bytes (Fulfilled answer) = Fulfilled (firstn 32 b) /\
     List.length (firstn 32 b) <= 32) /\
  (forall e, from_base64 str ORIGINAL = Throw e ->
     first_32_bytes (Fulfilled answer) = Rejected e).
Proof.
  intros Hready Htext. split.
  - intros b Hb. split; [|rewrite length_firstn; lia].
    unfold first_32_bytes, util.fromBase64. cbn [JS.then_]. rewrite Htext, Hready.
    cbn [JS.then_]. rewrite Hb. reflexivity.
  - intros e He. unfold first_32_bytes, util.fromBase64. cbn [JS.then_].
    rewrite Htext, Hready. cbn [JS.then_]. rewrite He. reflexivity.
Qed.

Lemma X15_first_32_bytes_witness :
  first_32_bytes (sodium := Toy.sodium)
    (Fulfilled {| text := Fulfilled "0123456789012345678901234567890123456789" |})
  = Fulfilled (list_byte_of_string "01234567890123456789012345678901") /\
  first_32_bytes (sodium := ToyMore.strict_sodium)
    (Fulfilled {| text := Fulfilled "not base64!" |})
  = Rejected (SodiumError "invalid input").
Proof.
  split.
  - destruct (@X15_first_32_bytes Toy.sodium
                {| text := Fulfilled "0123456789012345678901234567890123456789" |}
                "0123456789012345678901234567890123456789"
                ToyFacts.toy_ready eq_refl) as [Hok _].
    apply (Hok (list_byte_of_string
                  "0123456789012345678901234567890123456789") eq_refl).
  - destruct (@X15_first_32_bytes ToyMore.strict_sodium
                {| text := Fulfilled "not base64!" |} "not base64!"
                eq_refl eq_refl) as [_ Hbad].
    apply (Hbad (SodiumError "invalid input") eq_refl).
Defined.

(** X16: a registration of the salt that fails does not fail the sign-up:
    [generateNewReadwriteKeypair] goes on with the salt string it made, and
    gives what it gives when the registration echoes that string. *)
Theorem X16_registration_failure_is_soft {sodium : Sodium}
    (email password : string) (remote local : promise bytes)
    (saltRegistrationCallback : string -> string -> promise salt_value)
    (g : rng) :
  (forall saltString,
     exists e, saltRegistrationCallback email saltString = Rejected e) ->
  generateNewReadwriteKeypair email password remote local
    saltRegistrationCallback g
  = generateNewReadwriteKeypair email password remote local
      (fun _ saltString => Fulfilled (SaltString saltString)) g.
Proof.
  intros Hfail. unfold generateNewReadwriteKeypair.
  destruct remote as [r| |]; try reflexivity.
  destruct local as [l| |]; try reflexivity. cbn [JS.await].
  destruct (util.toBase64 (XorUint8Array r l)) as [saltString| |];
    try reflexivity.
  cbn [JS.await]. destruct (Hfail saltString) as [e He]. rewrite He.
  reflexivity.
Qed.

Lemma X16_registration_failure_is_soft_witness :
  generateNewReadwriteKeypair (sodium := Toy.sodium)
    "alice@holo.host" "hunter2"
    (Fulfilled (repeat x00 32)) (Fulfilled (repeat x41 32))
    (fun _ _ => Rejected (Error "503 Service Unavailable")) Toy.zeros
  = generateNewReadwriteKeypair (sodium := Toy.sodium)
      "alice@holo.host" "hunter2"
      (Fulfilled (repeat x00 32)) (Fulfilled (repeat x41 32))
      (fun _ saltString => Fulfilled (SaltString saltString)) Toy.zeros.
Proof.
  apply (@X16_registration_failure_is_soft Toy.sodium
           "alice@holo.host" "hunter2"
           (Fulfilled (repeat x00 32)) (Fulfilled (repeat x41 32))
           (fun _ _ => Rejected (Error "503 Service Unavailable")) Toy.zeros).
  intros saltString. exists (Error "503 Service Unavailable"). reflexivity.
Defined.

Lemma regenerate_with_salt {sodium : Sodium} (email password : string)
    (lookup : string -> promise (option bytes)) (r : bytes) (g : rng) :
  sodium_ready -> lookup email = Fulfilled (Some r) ->
  16 <= List.length r ->
  regenerateReadwriteKeypair email password lookup g
  = (Fulfilled
       (Some (keypair_of_seed (crypto_pwhash 32 password (slice r 0 16)))),
     []).
Proof.
  intros Hready Hl Hsize. unfold regenerateReadwriteKeypair. rewrite Hl.
  cbn [JS.await]. rewrite (pwHash_eq Hready).
  2:{ unfold slice. cbn [skipn Nat.sub]. rewrite length_firstn. lia. }
  cbn [JS.await fst snd hash].
  rewrite (newFromSeed_eq Hready). reflexivity.
Qed.

(** With a salt of fewer than 16 bytes the hash never comes. *)
Lemma regenerate_short_salt {sodium : Sodium} (email password : string)
    (lookup : string -> promise (option bytes)) (r : bytes) (g : rng) :
  lookup email = Fulfilled (Some r) ->
  List.length r < 16 ->
  regenerateReadwriteKeypair email password lookup g = (Pending, []).
Proof.
  intros Hl Hsize. unfold regenerateReadwriteKeypair. rewrite Hl.
  cbn [JS.await]. rewrite pwHash_wrong_size; [reflexivity|].
  unfold slice. cbn [skipn Nat.sub]. rewrite length_firstn. lia.
Qed.

(** X17: logging in gives the keypair of the sign-up: when the registration
    of the salt string that the sign-up made resolved to a byte array of at
    least 16 bytes (the service may echo the salt, or answer with another)
    and the lookup later resolves to the same array,
    [regenerateReadwriteKeypair] with the same password resolves to the
    keypair that [generateNewReadwriteKeypair] resolved to.  With a
    registered array of fewer than 16 bytes neither of them is ever
    settled: the password hash refuses the salt inside a dropped
    callback. *)
Theorem X17_login_regenerates_signup_keypair {sodium : Sodium}
    (email password : string) (remote local registered : bytes)
    (register : string -> string -> promise salt_value)
    (lookup : string -> promise (option bytes)) (g g' : rng) :
  sodium_ready ->
  register email (to_base64 (XorUint8Array remote local) ORIGINAL)
  = Fulfilled (SaltBytes registered) ->
  lookup email = Fulfilled (Some registered) ->
  (16 <= List.length registered ->
   exists kp,
     generateNewReadwriteKeypair email password
       (Fulfilled remote) (Fulfilled local) register g = Fulfilled kp /\
     fst (regenerateReadwriteKeypair email password lookup g')
     = Fulfilled (Some kp)) /\
  (List.length registered < 16 ->
   generateNewReadwriteKeypair email password
     (Fulfilled remote) (Fulfilled local) register g = Pending /\
   fst (regenerateReadwriteKeypair email password lookup g') = Pending).
Proof.
  intros Hready Hreg Hlookup. split.
  - intros Hsize.
    exists (keypair_of_seed
              (crypto_pwhash 32 password (slice registered 0 16))).
    split.
    + unfold generateNewReadwriteKeypair. cbn [JS.await].
      rewrite (toBase64_eq _ Hready). cbn [JS.await]. rewrite Hreg.
      cbn [JS.try_catch JS.await salt_slice salt_argument].
      rewrite (pwHash_eq Hready).
      2:{ unfold slice. cbn [skipn Nat.sub]. rewrite length_firstn. lia. }
      cbn [JS.await fst snd hash].
      rewrite (newFromSeed_eq Hready). reflexivity.
    + rewrite (regenerate_with_salt email password lookup registered g'
                 Hready Hlookup Hsize). reflexivity.
  - intros Hsize. split.
    + unfold generateNewReadwriteKeypair. cbn [JS.await].
      rewrite (toBase64_eq _ Hready). cbn [JS.await]. rewrite Hreg.
      cbn [JS.try_catch JS.await salt_slice salt_argument].
      rewrite pwHash_wrong_size; [reflexivity|].
      unfold slice. cbn [skipn Nat.sub]. rewrite length_firstn. lia.
    + rewrite (regenerate_short_salt email password lookup registered g'
                 Hlookup Hsize). reflexivity.
Qed.

Lemma X17_login_regenerates_signup_keypair_witness :
  (exists kp,
     generateNewReadwriteKeypair (sodium := Toy.sodium)
       "alice@holo.host" "hunter2"
       (Fulfilled (repeat x00 32)) (Fulfilled (repeat x41 32))
       (fun _ saltString =>
          Fulfilled (SaltBytes (slice (list_byte_of_string saltString) 0 32)))
       Toy.zeros
       = Fulfilled kp /\
     fst (regenerateReadwriteKeypair (sodium := Toy.sodium)
            "alice@holo.host" "hunter2"
            (fun _ => Fulfilled (Some (repeat x41 32))) Toy.zeros)
     = Fulfilled (Some kp)) /\
  generateNewReadwriteKeypair (sodium := Toy.sodium)
    "alice@holo.host" "hunter2"
    (Fulfilled (repeat x00 32)) (Fulfilled (repeat x41 32))
    (fun _ _ => Fulfilled (SaltBytes (repeat x07 4))) Toy.zeros
  = Pending.
Proof.
  split.
  - destruct (@X17_login_regenerates_signup_keypair Toy.sodium
                "alice@holo.host" "hunter2" (repeat x00 32) (repeat x41 32)
                (repeat x41 32)
                (fun _ saltString =>
                   Fulfilled
                     (SaltBytes (slice (list_byte_of_string saltString) 0 32)))
                (fun _ => Fulfilled (Some (repeat x41 32)))
                Toy.zeros Toy.zeros ToyFacts.toy_ready eq_refl eq_refl)
      as [H _].
    apply H. cbn. lia.
  - destruct (@X17_login_regenerates_signup_keypair Toy.sodium
                "alice@holo.host" "hunter2" (repeat x00 32) (repeat x41 32)
                (repeat x07 4)
                (fun _ _ => Fulfilled (SaltBytes (repeat x07 4)))
                (fun _ => Fulfilled (Some (repeat x07 4)))
                Toy.zeros Toy.zeros ToyFacts.toy_ready eq_refl eq_refl)
      as [_ H].
    apply H. cbn. lia.
Defined.

(** X18: once a salt of at least 16 bytes is found,
    [regenerateReadwriteKeypair] resolves to a keypair for every password
    and writes nothing to the console: a wrong password is not detected.
    Only the first 16 bytes of the salt count.  A salt of fewer than 16
    bytes (the service answers with at most 32, possibly none) is refused by
    the password hash inside a dropped callback: the promise is never
    settled, and nothing is written to the console either. *)
Theorem X18_regenerate_accepts_any_password {sodium : Sodium}
    (email password : string) (r r' : bytes)
    (lookup lookup' : string -> promise (option bytes)) (g g' : rng) :
  sodium_ready ->
  lookup email = Fulfilled (Some r) ->
  lookup' email = Fulfilled (Some r') ->
  (16 <= List.length r ->
   firstn 16 r = firstn 16 r' ->
   exists kp,
     derived kp /\
     regenerateReadwriteKeypair email password lookup g
     = (Fulfilled (Some kp), []) /\
     regenerateReadwriteKeypair email password lookup' g'
     = (Fulfilled (Some kp), [])) /\
  (List.length r < 16 ->
   regenerateReadwriteKeypair email password lookup g = (Pending, [])).
Proof.
  intros Hready Hl Hl'. split.
  - intros Hsize Hsame.
    assert (Hsize' : 16 <= List.length r').
    { apply (f_equal (@List.length byte)) in Hsame.
      rewrite !length_firstn in Hsame. lia. }
    exists (keypair_of_seed (crypto_pwhash 32 password (slice r 0 16))).
    split; [eexists; apply (newFromSeed_eq Hready)|].
    split; [apply regenerate_with_salt; assumption|].
    rewrite (regenerate_with_salt email password lookup' r' g' Hready Hl'
               Hsize').
    unfold slice. cbn [skipn Nat.sub]. rewrite Hsame. reflexivity.
  - intros Hsize.
    apply (regenerate_short_salt email password lookup r g Hl Hsize).
Qed.

Lemma X18_regenerate_accepts_any_password_witness :
  (exists kp,
     derived (sodium := Toy.sodium) kp /\
     regenerateReadwriteKeypair (sodium := Toy.sodium)
       "alice@holo.host" "not my password"
       (fun _ => Fulfilled (Some (repeat x07 32))) Toy.zeros
     = (Fulfilled (Some kp), []) /\
     regenerateReadwriteKeypair (sodium := Toy.sodium)
       "alice@holo.host" "not my password"
       (fun _ => Fulfilled (Some (repeat x07 16 ++ repeat x09 16))) Toy.zeros
     = (Fulfilled (Some kp), [])) /\
  regenerateReadwriteKeypair (sodium := Toy.sodium)
    "alice@holo.host" "hunter2" (fun _ => Fulfilled (Some [])) Toy.zeros
  = (Pending, []).
Proof.
  split.
  - destruct (@X18_regenerate_accepts_any_password Toy.sodium
                "alice@holo.host" "not my password"
                (repeat x07 32) (repeat x07 16 ++ repeat x09 16)
                (fun _ => Fulfilled (Some (repeat x07 32)))
                (fun _ => Fulfilled (Some (repeat x07 16 ++ repeat x09 16)))
                Toy.zeros Toy.zeros ToyFacts.toy_ready eq_refl eq_refl)
      as [H _].
    apply H; [cbn; lia | reflexivity].
  - destruct (@X18_regenerate_accepts_any_password Toy.sodium
                "alice@holo.host" "hunter2" [] []
                (fun _ => Fulfilled (Some [])) (fun _ => Fulfilled (Some []))
                Toy.zeros Toy.zeros ToyFacts.toy_ready eq_refl eq_refl)
      as [_ H].
    apply H. cbn. lia.
Defined.

(** ** The session at the edges *)

Section SessionEdges.
Context {sodium : Sodium} {hcid : Hcid}.
Variable host : string -> value -> promise value.

Lemma deliver_fold_no_listener (event : string) (ev : SignEvent)
    (ls : list (string * listener)) (s : Session) :
  listeners_on event ls = [] ->
  fold_left
    (fun s' '(name, l) =>
       if String.eqb name event then fst (run_listener host l ev s') else s')
    ls s = s.
Proof.
  revert s. induction ls as [|[name l] ls IH]; intros s H; [reflexivity|].
  cbn [fold_left]. cbn [listeners_on filter] in H.
  destruct (String.eqb name event); [discriminate|]. apply IH. exact H.
Qed.

Lemma run_listener_unbound (l : listener) (ev : SignEvent) (s : Session) :
  keypair s = None -> fst (run_listener host l ev s) = s.
Proof. intros H. destruct l. unfold run_listener. rewrite H. reflexivity. Qed.

Lemma run_listener_without_key (l : listener) (ev : SignEvent) (s : Session)
    (kp : Keypair) :
  keypair s = Some kp -> _signPriv kp = None ->
  fst (run_listener host l ev s) = s.
Proof.
  intros Hkp Hsk. destruct l. unfold run_listener. rewrite Hkp.
  unfold bind, lift. rewrite (sign_without_key kp _ Hsk). reflexivity.
Qed.

Lemma deliver_fold_idle (event : string) (ev : SignEvent)
    (ls : list (string * listener)) (s : Session) :
  (forall l, fst (run_listener host l ev s) = s) ->
  fold_left
    (fun s' '(name, l) =>
       if String.eqb name event then fst (run_listener host l ev s') else s')
    ls s = s.
Proof.
  intros H. induction ls as [|[name l] ls IH]; [reflexivity|].
  cbn [fold_left]. destruct (String.eqb name event); [rewrite H|]; exact IH.
Qed.

End SessionEdges.

(** X19: an event on a name nobody registered for, and any event that
    arrives while no keypair is bound, is not answered: the session and the
    calls made on its channel stay as they were. *)
Theorem X19_deliver_unanswered {sodium : Sodium}
    (host : string -> value -> promise value) (event : string)
    (ev : SignEvent) (s : Session) :
  (forall ws, websocket s = Some ws ->
     listeners_on event (listeners ws) = [] ->
     deliver host event ev s = s) /\
  (keypair s = None -> deliver host event ev s = s).
Proof.
  split.
  - intros ws Hws Hnone. unfold deliver. rewrite Hws.
    apply deliver_fold_no_listener. exact Hnone.
  - intros Hkp. unfold deliver. destruct (websocket s) as [ws|];
      [|reflexivity].
    apply deliver_fold_idle. intros l. apply run_listener_unbound. exact Hkp.
Qed.

Lemma X19_deliver_unanswered_witness :
  let bound :=
    bound_session Toy.fresh_session Toy.open_channel
      (Toy.keypair_of Toy.seed1) "Hc1" in
  deliver (sodium := Toy.sodium) Toy.host "agent/Hc2/sign"
    {| entry := "abc"; id := VStr "7" |} bound = bound /\
  deliver (sodium := Toy.sodium) Toy.host "agent/Hc1/sign"
    {| entry := "abc"; id := VStr "7" |} (set_keypair None bound)
  = set_keypair None bound.
Proof.
  cbv zeta. split.
  - destruct (@X19_deliver_unanswered Toy.sodium Toy.host "agent/Hc2/sign"
                {| entry := "abc"; id := VStr "7" |}
                (bound_session Toy.fresh_session Toy.open_channel
                   (Toy.keypair_of Toy.seed1) "Hc1")) as [H _].
    eapply H; reflexivity.
  - destruct (@X19_deliver_unanswered Toy.sodium Toy.host "agent/Hc1/sign"
                {| entry := "abc"; id := VStr "7" |}
                (set_keypair None
                   (bound_session Toy.fresh_session Toy.open_channel
                      (Toy.keypair_of Toy.seed1) "Hc1"))) as [_ H].
    apply H. reflexivity.
Defined.

(** X20: with a bound keypair that has no private signing key, nothing is
    signed: a sign-event gets no [clientSignature] call, and [_preCall]
    rejects with "no signPriv - cannot sign data"; the session stays as it
    was in both cases. *)
Theorem X20_bound_keypair_without_signing_key {sodium : Sodium}
    {json : Json} {hcid : Hcid}
    (host : string -> value -> promise value) (s : Session) (kp : Keypair)
    (event : string) (ev : SignEvent) (method : string) (args : value) :
  keypair s = Some kp -> _signPriv kp = None ->
  deliver host event ev s = s /\
  _preCall method args s
  = (s, Rejected (Error "no signPriv - cannot sign data")).
Proof.
  intros Hkp Hsk. split.
  - unfold deliver. destruct (websocket s) as [ws|]; [|reflexivity].
    apply deliver_fold_idle. intros l.
    apply (run_listener_without_key host l ev s kp Hkp Hsk).
  - unfold _preCall. rewrite Hkp. unfold bind, lift.
    rewrite (sign_without_key kp _ Hsk). reflexivity.
Qed.

Lemma X20_bound_keypair_without_signing_key_witness :
  let bound :=
    bound_session Toy.fresh_session Toy.open_channel
      (ToyMore.public_keys_of Toy.seed1) "Hc1" in
  deliver (sodium := Toy.sodium) Toy.host "agent/Hc1/sign"
    {| entry := "abc"; id := VStr "7" |} bound = bound /\
  _preCall (sodium := Toy.sodium) (json := Toy.json) (hcid := Toy.hcid)
    "instance/zome/fn" VNull bound
  = (bound, Rejected (Error "no signPriv - cannot sign data")).
Proof.
  cbv zeta.
  apply (@X20_bound_keypair_without_signing_key Toy.sodium Toy.json Toy.hcid
           Toy.host
           (bound_session Toy.fresh_session Toy.open_channel
              (ToyMore.public_keys_of Toy.seed1) "Hc1")
           (ToyMore.public_keys_of Toy.seed1) "agent/Hc1/sign"
           {| entry := "abc"; id := VStr "7" |} "instance/zome/fn" VNull);
    reflexivity.
Defined.







(** X22: a binding that fails has replaced the keypair all the same.
    Without a channel [sendClientSignature] rejects with its own error;
    when the host refuses the identify call it rejects with the error of the
    host, after that one call; in both cases nothing is subscribed and no
    function is registered. *)
Theorem X22_failed_binding_replaces_keypair {hcid : Hcid}
    (host : string -> value -> promise value) (s : Session)
    (kp : Keypair) :
  (websocket s = None ->
   sendClientSignature host (Some kp) s
   = (set_keypair (Some kp) s,
      Rejected (Error
        "Could not register callback as no valid websocket instance found")))
  /\
  (forall ws agentId e,
     websocket s = Some ws ->
     hcs0_encode (_signPub kp) = Val agentId ->
     host "holo/identify" (VObj [("agentId", VStr agentId)]) = Rejected e ->
     sendClientSignature host (Some kp) s
     = (set_websocket (Some (add_calls ws [identify_call agentId]))
          (set_keypair (Some kp) s),
        Rejected e)).
Proof.
  split.
  - intros Hws. unfold sendClientSignature. cbn [set_keypair websocket].
    rewrite Hws. reflexivity.
  - intros ws agentId e Hws Hid Hhost. destruct s as [k w h n].
    cbn in Hws. subst w.
    unfold sendClientSignature, bind, getCurrentAgentId, websocket_call.
    cbn [set_keypair set_websocket websocket keypair _happId loginPrompts].
    rewrite Hid. cbn [JS.of_result JS.await value_of_option].
    rewrite Hhost. reflexivity.
Qed.

Lemma X22_failed_binding_replaces_keypair_witness :
  keypair
    (fst (sendClientSignature (hcid := Toy.hcid) Toy.host
            (Some (Toy.keypair_of Toy.seed1))
            (set_websocket None Toy.fresh_session)))
  = Some (Toy.keypair_of Toy.seed1) /\
  sendClientSignature (hcid := Toy.hcid) ToyMore.deaf_host
    (Some (Toy.keypair_of Toy.seed1)) Toy.fresh_session
  = (set_websocket
       (Some (add_calls Toy.open_channel
                [identify_call
                   ("Hc" ++ string_of_list_byte (Toy.fit32 Toy.seed1))
                   %string]))
       (set_keypair (Some (Toy.keypair_of Toy.seed1)) Toy.fresh_session),
     Rejected (Error "connection closed")).
Proof.
  split.
  - destruct (@X22_failed_binding_replaces_keypair Toy.hcid Toy.host
                (set_websocket None Toy.fresh_session)
                (Toy.keypair_of Toy.seed1)) as [H _].
    rewrite (H eq_refl). reflexivity.
  - destruct (@X22_failed_binding_replaces_keypair Toy.hcid ToyMore.deaf_host
                Toy.fresh_session (Toy.keypair_of Toy.seed1)) as [_ H].
    apply (H Toy.open_channel _ (Error "connection closed"));
      reflexivity.
Defined.

(** X23: a login that finds no salt ends as a success and unbinds the
    session.  [startLoginProcess] passes the [undefined] of
    [regenerateReadwriteKeypair] on: the keypair of the session becomes
    [undefined], the host is told an [undefined] agent twice, the name
    [agent/undefined/sign] is subscribed, the promise is fulfilled with
    [true], and every call after that is refused for want of keys. *)
Theorem X23_login_without_salt_unbinds {sodium : Sodium} {json : Json}
    {hcid : Hcid} (host : string -> value -> promise value)
    (generateNew : string -> string -> promise (option Keypair))
    (lookup : string -> promise (option bytes)) (g : rng)
    (email password : string) (s : Session) (ws : WebsocketClient) :
  websocket s = Some ws ->
  (lookup email = Fulfilled None \/ exists e, lookup email = Rejected e) ->
  (forall method args, exists answer, host method args = Fulfilled answer) ->
  let after :=
    startLoginProcess host generateNew
      (fun e p => fst (regenerateReadwriteKeypair e p lookup g))
      email password false s in
  snd after = Fulfilled true /\
  keypair (fst after) = None /\
  websocket (fst after)
  = Some {| calls :=
              calls ws
              ++ [("holo/identify", VObj [("agentId", VUndefined)])]
              ++ [("holo/agents/new",
                   VObj [("agentId", VUndefined);
                         ("happId", value_of_option (_happId s))])];
            subscriptions := subscriptions ws ++ ["agent/undefined/sign"];
            listeners :=
              listeners ws ++ [("agent/undefined/sign", SignOnRequest)] |} /\
  forall method args,
    snd (_preCall method args (fst after))
    = Rejected (Error "trying to call with no keys").
Proof.
  intros Hws Hlookup Hhost. cbv zeta.
  assert (Hnone : fst (regenerateReadwriteKeypair email password lookup g)
                  = Fulfilled None).
  { unfold regenerateReadwriteKeypair.
    destruct Hlookup as [H|[e H]]; rewrite H; reflexivity. }
  destruct (Hhost "holo/identify" (VObj [("agentId", VUndefined)]))
    as [a1 Ha1].
  destruct (Hhost "holo/agents/new"
              (VObj [("agentId", VUndefined);
                     ("happId", value_of_option (_happId s))]))
    as [a2 Ha2].
  destruct s as [k w h n]. cbn in Hws. subst w.
  cbn [_happId] in Ha2.
  unfold startLoginProcess, bind, lift, ret. rewrite Hnone.
  unfold sendClientSignature, requestHosting, bind, getCurrentAgentId,
    websocket_call, websocket_subscribe, websocket_on.
  cbn [set_keypair set_websocket websocket keypair _happId loginPrompts
       value_of_option].
  rewrite Ha1.
  cbn [set_keypair set_websocket websocket keypair _happId loginPrompts
       value_of_option calls subscriptions listeners].
  rewrite Ha2. cbn [fst snd keypair websocket].
  rewrite <- app_assoc.
  repeat split.
Qed.

Lemma X23_login_without_salt_unbinds_witness :
  let after :=
    startLoginProcess (hcid := Toy.hcid) Toy.host
      (fun _ _ => Pending)
      (fun e p =>
         fst (regenerateReadwriteKeypair (sodium := Toy.sodium) e p
                (fun _ => Rejected (Error "404 Not Found")) Toy.zeros))
      "agent@holo.host" "hunter2" false
      (bound_session Toy.fresh_session Toy.open_channel
         (Toy.keypair_of Toy.seed1) "Hc1") in
  snd after = Fulfilled true /\
  keypair (fst after) = None /\
  forall method args,
    snd (_preCall (sodium := Toy.sodium) (json := Toy.json)
           (hcid := Toy.hcid) method args (fst after))
    = Rejected (Error "trying to call with no keys").
Proof.
  cbv zeta.
  destruct (@X23_login_without_salt_unbinds Toy.sodium Toy.json Toy.hcid
              Toy.host (fun _ _ => Pending)
              (fun _ => Rejected (Error "404 Not Found")) Toy.zeros
              "agent@holo.host" "hunter2"
              (bound_session Toy.fresh_session Toy.open_channel
                 (Toy.keypair_of Toy.seed1) "Hc1")
              {| calls := [identify_call "Hc1"];
                 subscriptions := [sign_event_name (Some "Hc1")];
                 listeners := [(sign_event_name (Some "Hc1"),
                                SignOnRequest)] |})
    as [Htrue [Hkp [_ Hcalls]]].
  - reflexivity.
  - right. exists (Error "404 Not Found"). reflexivity.
  - intros method args. eexists. reflexivity.
  - split; [exact Htrue|]. split; [exact Hkp | exact Hcalls].
Defined.

(** X24: a login that gets a keypair binds it and asks for hosting, in this
    order: the identify call, the subscription and registration for the new
    identity, then the [holo/agents/new] call with the agent id and the
    application id; the promise is fulfilled with [true]. *)
Theorem X24_login_binds_then_requests_hosting {hcid : Hcid}
    (host : string -> value -> promise value)
    (generateNew regenerate : string -> string -> promise (option Keypair))
    (email password : string) (newRegistration : bool) (kp : Keypair)
    (agentId : string) (s : Session) (ws : WebsocketClient) :
  websocket s = Some ws ->
  (if newRegistration then generateNew email password
   else regenerate email password) = Fulfilled (Some kp) ->
  hcs0_encode (_signPub kp) = Val agentId ->
  (forall method args, exists answer, host method args = Fulfilled answer) ->
  startLoginProcess host generateNew regenerate email password
    newRegistration s
  = (set_websocket
       (Some (add_calls
                {| calls := calls ws ++ [identify_call agentId];
                   subscriptions :=
                     subscriptions ws ++ [sign_event_name (Some agentId)];
                   listeners :=
                     listeners ws ++ [(sign_event_name (Some agentId),
                                       SignOnRequest)] |}
                [("holo/agents/new",
                  VObj [("agentId", VStr agentId);
                        ("happId", value_of_option (_happId s))])]))
       (set_keypair (Some kp) s),
     Fulfilled true).
Proof.
  intros Hws Hgen Hid Hhost.
  destruct (Hhost "holo/identify" (VObj [("agentId", VStr agentId)]))
    as [a1 Ha1].
  destruct (Hhost "holo/agents/new"
              (VObj [("agentId", VStr agentId);
                     ("happId", value_of_option (_happId s))]))
    as [a2 Ha2].
  unfold startLoginProcess, bind, lift, ret. rewrite Hgen.
  rewrite (sendClientSignature_bound host s ws kp agentId a1 Hws Hid Ha1).
  unfold requestHosting, bind, getCurrentAgentId, websocket_call.
  cbn [bound_session websocket keypair _happId]. rewrite Hid.
  cbn [JS.of_result JS.await value_of_option bound_session websocket keypair
       _happId].
  rewrite Ha2. reflexivity.
Qed.

Lemma X24_login_binds_then_requests_hosting_witness :
  exists after,
    startLoginProcess (hcid := Toy.hcid) Toy.host
      (fun _ _ => Fulfilled (Some (Toy.keypair_of Toy.seed1)))
      (fun _ _ => Pending) "agent@holo.host" "hunter2" true
      Toy.fresh_session
    = (after, Fulfilled true) /\
    keypair after = Some (Toy.keypair_of Toy.seed1) /\
    map fst (calls_of after) = ["holo/identify"; "holo/agents/new"].
Proof.
  eexists. split.
  - apply (@X24_login_binds_then_requests_hosting Toy.hcid Toy.host
             (fun _ _ => Fulfilled (Some (Toy.keypair_of Toy.seed1)))
             (fun _ _ => Pending) "agent@holo.host" "hunter2" true
             (Toy.keypair_of Toy.seed1)
             ("Hc" ++ string_of_list_byte (Toy.fit32 Toy.seed1))%string
             Toy.fresh_session Toy.open_channel);
      try reflexivity.
    intros method args. eexists. reflexivity.
  - split; reflexivity.
Defined.

(** ** The wrapped client *)

Lemma split_not_nil (sep : ascii) (str : string) : split sep str <> [].
Proof.
  destruct str as [|c rest]; cbn; [discriminate|].
  destruct (Ascii.eqb c sep); [discriminate|].
  destruct (split sep rest); discriminate.
Qed.

Lemma join_cons_char (sep : string) (c : ascii) (p : string)
    (ps : list string) :
  join sep (String c p :: ps) = String c (join sep (p :: ps)).
Proof. destruct ps; reflexivity. Qed.

Lemma join_split (sep : ascii) (str : string) :
  join (String sep EmptyString) (split sep str) = str.
Proof.
  induction str as [|c rest IH]; [reflexivity|]. cbn [split].
  destruct (Ascii.eqb c sep) eqn:E.
  - apply Ascii.eqb_eq in E. subst c.
    pose proof (split_not_nil sep rest) as Hne.
    destruct (split sep rest) as [|first others]; [contradiction|].
    cbn [join]. cbn [join] in IH. rewrite IH. reflexivity.
  - pose proof (split_not_nil sep rest) as Hne.
    destruct (split sep rest) as [|first others]; [contradiction|].
    rewrite join_cons_char, IH. reflexivity.
Qed.









Lemma string_or_truthy (h : string) (other : option string) :
  h <> EmptyString -> string_or (Some h) other = Some h.
Proof. intros H. destruct h; [contradiction|reflexivity]. Qed.

(** X27: how [makeWebClient] chooses the host and the application id.  When
    both [hostUrl] and a non-empty [happId] are given, the resolver is not
    needed: they are taken as they are, also with the resolver down.  When
    only [happId] is given and the module already holds an application id
    from an earlier call, the host url is built from the id already held,
    not from the one given, and only afterwards the given id replaces
    it. *)
Theorem X27_makeWebClient_setup
    (getHostsForUrl : string -> promise (list string))
    (getHashForUrl : string -> promise string) (origin : string)
    (given : string) (app : option string) (s : Session) :
  given <> EmptyString ->
  (forall hostUrl0,
     makeWebClient_setup getHostsForUrl getHashForUrl origin
       {| hostUrl := Some hostUrl0; hAppUrl := app; happId := Some given |} s
     = (set_happId (Some given) s, Fulfilled hostUrl0)) /\
  (forall held hosts,
     held <> EmptyString ->
     _happId s = Some held ->
     getHostsForUrl (String_of (string_or app (Some origin)))
       = Fulfilled hosts ->
     makeWebClient_setup getHostsForUrl getHashForUrl origin
       {| hostUrl := None; hAppUrl := app; happId := Some given |} s
     = (set_happId (Some given) s,
        Fulfilled ("ws://" ++ held ++ "." ++ String_of (nth_error hosts 0))
                  %string)).
Proof.
  intros Hgiven. split.
  - intros hostUrl0. unfold makeWebClient_setup, bind, ret.
    cbn [hostUrl happId]. rewrite (string_or_truthy given None Hgiven).
    reflexivity.
  - intros held hosts Hheld Hs Hhosts.
    unfold makeWebClient_setup, getHostForUrl, bind, ret, lift.
    cbn [hostUrl happId hAppUrl]. rewrite Hhosts, Hs.
    rewrite (string_or_truthy given None Hgiven).
    rewrite (string_or_truthy held (Some given) Hheld). reflexivity.
Qed.

Lemma X27_makeWebClient_setup_witness :
  makeWebClient_setup ToyMore.no_hosts ToyMore.no_hash "https://app.example"
    {| hostUrl := Some "ws://localhost:4000"; hAppUrl := None;
       happId := Some "QmGiven" |} Toy.fresh_session
  = (set_happId (Some "QmGiven") Toy.fresh_session,
     Fulfilled "ws://localhost:4000") /\
  makeWebClient_setup ToyMore.hosts_of ToyMore.no_hash "https://app.example"
    {| hostUrl := None; hAppUrl := None; happId := Some "QmGiven" |}
    (set_happId (Some "QmHeld") Toy.fresh_session)
  = (set_happId (Some "QmGiven") Toy.fresh_session,
     Fulfilled "ws://QmHeld.host1.holohost.net").
Proof.
  split.
  - destruct (@X27_makeWebClient_setup ToyMore.no_hosts ToyMore.no_hash
                "https://app.example" "QmGiven" None Toy.fresh_session)
      as [H _]; [discriminate|].
    apply H.
  - destruct (@X27_makeWebClient_setup ToyMore.hosts_of ToyMore.no_hash
                "https://app.example" "QmGiven" None
                (set_happId (Some "QmHeld") Toy.fresh_session))
      as [_ H]; [discriminate|].
    apply (H "QmHeld" ["host1.holohost.net"; "host2.holohost.net"]);
      [discriminate | reflexivity | reflexivity].
Defined.

(** X28: [_postConnect] stores the channel before it generates the readonly
    keypair.  When the generation fails, the promise is rejected with that
    error, the channel is kept and no call is made on it; when it succeeds
    and the host answers the identify call, the keypair is bound on the
    channel and the promise resolves to the channel. *)
Theorem X28_postConnect {hcid : Hcid}
    (host : string -> value -> promise value) (ws : WebsocketClient)
    (s : Session) :
  (forall e,
     _postConnect host (Rejected e) ws s
     = (set_websocket (Some ws) s, Rejected e)) /\
  (forall kp agentId answer,
     hcs0_encode (_signPub kp) = Val agentId ->
     host "holo/identify" (VObj [("agentId", VStr agentId)])
       = Fulfilled answer ->
     exists ws',
       _postConnect host (Fulfilled kp) ws s
       = (bound_session s ws kp agentId, Fulfilled ws') /\
       websocket (bound_session s ws kp agentId) = Some ws' /\
       calls ws' = calls ws ++ [identify_call agentId]).
Proof.
  split; [reflexivity|].
  intros kp agentId answer Hid Hhost. eexists.
  unfold _postConnect, bind, lift.
  rewrite (sendClientSignature_bound host (set_websocket (Some ws) s) ws
             kp agentId answer eq_refl Hid Hhost).
  repeat split.
Qed.

Lemma X28_postConnect_witness :
  exists ws',
    _postConnect (hcid := Toy.hcid) Toy.host
      (Fulfilled (Toy.keypair_of Toy.seed1)) Toy.open_channel
      (set_websocket None Toy.fresh_session)
    = (bound_session Toy.fresh_session Toy.open_channel
         (Toy.keypair_of Toy.seed1)
         ("Hc" ++ string_of_list_byte (Toy.fit32 Toy.seed1))%string,
       Fulfilled ws') /\
    map fst (calls ws') = ["holo/identify"].
Proof.
  destruct (@X28_postConnect Toy.hcid Toy.host Toy.open_channel
              (set_websocket None Toy.fresh_session)) as [_ H].
  destruct (H (Toy.keypair_of Toy.seed1)
              ("Hc" ++ string_of_list_byte (Toy.fit32 Toy.seed1))%string
              (VObj [("Ok", VBool true)]) eq_refl eq_refl)
    as [ws' [Hrun [_ Hcalls]]].
  exists ws'. split; [exact Hrun|]. rewrite Hcalls. reflexivity.
Defined.
